(** * prepare_data.py: the skimming and merging pipeline

    A shallow embedding of [src/prepare_data.py] and the properties of its
    per-file processor, dispatcher, merger and [main]. The script is Python 2
    with numpy (its companion run_classifiers.py uses [xrange]), so [filter]
    returns a list and [dict.keys()] returns a list.

    Conventions of the embedding:
    - a Python [dict] with string keys is a [gmap string _];
    - a one-dimensional numpy array is a [dtype] tag and the list of its
      items; ragged (per-event, variable-length) columns are object arrays
      whose items are float arrays;
    - float64 values are carried as rationals: prepare_data.py itself does no
      arithmetic on them, it only moves them around;
    - Python exceptions are the [Raise] results of an error monad, and the
      module state ([XsecMap._xsecMap], the log, the written npz files) is
      threaded explicitly. *)

From Stdlib Require Import ZArith QArith String Ascii Lia.
From stdpp Require Import base option list gmap strings.

Local Open Scope string_scope.
Local Open Scope Z_scope.

(** ** Exceptions and the error monad *)

Inductive exn : Type :=
| KeyError (key : string)
| IOError (msg : string)
| IndexError
| ValueError (msg : string)
| TypeError.

Inductive result (A : Type) : Type :=
| Ok (a : A)
| Raise (e : exn).
Arguments Ok {A} a.
Arguments Raise {A} e.

Global Instance result_ret : MRet result := @Ok.
Global Instance result_bind : MBind result := λ A B f r,
  match r with
  | Ok a => f a
  | Raise e => Raise e
  end.
Global Instance result_fmap : FMap result := λ A B f r,
  match r with
  | Ok a => Ok (f a)
  | Raise e => Raise e
  end.

Definition raises {A} (r : result A) : Prop := ∃ e, r = Raise e.

(** [[f(x) for x in l]]: the first exception, in list order, escapes. *)
Fixpoint for_list {A B} (f : A → result B) (l : list A) : result (list B) :=
  match l with
  | [] => Ok []
  | x :: l' => y ← f x; ys ← for_list f l'; Ok (y :: ys)
  end.

(** ** numpy arrays *)

Inductive dtype : Type := DBool | DInt | DFloat | DObject.

Inductive elem : Type :=
| EBool (b : bool)
| EInt (z : Z)
| EFloat (q : Q)
| EStr (s : string)
| EArr (a : list Q).

Record ndarray : Type := NDArray { dt : dtype; items : list elem }.

(** [len(a)], a Python int. *)
Definition len (a : ndarray) : Z := Z.of_nat (length (items a)).

(** [np.zeros(0)] is [np_zeros0 DFloat]; [np.zeros(0, dtype=np.bool)] is
    [np_zeros0 DBool]. *)
Definition np_zeros0 (d : dtype) : ndarray := NDArray d [].

Definition int_array (l : list Z) : ndarray := NDArray DInt (EInt <$> l).
Definition float_array (l : list Q) : ndarray := NDArray DFloat (EFloat <$> l).
Definition bool_array (l : list bool) : ndarray := NDArray DBool (EBool <$> l).
Definition object_array (l : list elem) : ndarray := NDArray DObject l.
(** An object array with one float array per event. *)
Definition ragged_array (l : list (list Q)) : ndarray := NDArray DObject (EArr <$> l).

(** numpy's type promotion on the four dtypes in use:
    bool < int64 < float64 < object. *)
Definition dtype_rank (d : dtype) : nat :=
  match d with DBool => 0 | DInt => 1 | DFloat => 2 | DObject => 3 end%nat.
Definition promote (d1 d2 : dtype) : dtype :=
  if decide (dtype_rank d1 ≤ dtype_rank d2)%nat then d2 else d1.

(** The value an item takes when its array is cast up to dtype [d]. *)
Definition cast_elem (d : dtype) (e : elem) : elem :=
  match d, e with
  | DInt, EBool b => EInt (Z.b2z b)
  | DFloat, EBool b => EFloat (inject_Z (Z.b2z b))
  | DFloat, EInt z => EFloat (inject_Z z)
  | _, _ => e
  end.

(** [np.concatenate(arrays)] on one-dimensional arrays: an empty list of
    arrays is a ValueError. *)
Definition np_concatenate (arrays : list ndarray) : result ndarray :=
  match arrays with
  | [] => Raise (ValueError "need at least one array to concatenate")
  | a :: rest =>
      let d := foldl promote (dt a) (dt <$> rest) in
      Ok (NDArray d (cast_elem d <$> concat (items <$> arrays)))
  end.

(** [a[mask]] for a boolean array [mask]: the items at the True positions;
    a mask of another length than [a] is an IndexError. *)
Fixpoint select_mask {A} (mask : list bool) (l : list A) : list A :=
  match mask, l with
  | b :: mask', x :: l' => if b then x :: select_mask mask' l' else select_mask mask' l'
  | _, _ => []
  end.

Definition mask_index (a : ndarray) (mask : list bool) : result ndarray :=
  if decide (length (items a) = length mask)
  then Ok (NDArray (dt a) (select_mask mask (items a)))
  else Raise IndexError.

(** [np.sum(mask)] of a boolean array: the number of True entries. *)
Definition np_sum_bool (mask : list bool) : Z :=
  Z.of_nat (length (filter (λ b, b = true) mask)).

(** [a.sum()] of an integer array (items of another kind count for 0; the
    bookkeeping columns hold integers only). *)
Definition elem_int (e : elem) : Z :=
  match e with EInt z => z | EBool b => Z.b2z b | _ => 0 end.
Definition np_sum_int (a : ndarray) : Z := foldr Z.add 0 (elem_int <$> items a).

(** ** Column tables *)

Abbreviation table := (gmap string ndarray).

(** [d[key]] on a dict. *)
Definition getitem (d : table) (key : string) : result ndarray :=
  match d !! key with
  | Some a => Ok a
  | None => Raise (KeyError key)
  end.

(** [for k in ks: acc[k] = f(k)], stopping at the first exception. *)
Fixpoint fill (f : string → result ndarray) (ks : list string) (acc : table)
  : result table :=
  match ks with
  | [] => Ok acc
  | k :: ks' => v ← f k; fill f ks' (<[k := v]> acc)
  end.

(** ** Result Merger *)

(** [filter(None, dicts)] (a list in Python 2): the truthy items, so [None]
    and the empty dict are dropped. *)
Definition truthy (d : option table) : option table :=
  match d with
  | Some m => if decide (m = ∅) then None else Some m
  | None => None
  end.
Definition filter_None (dicts : list (option table)) : list table :=
  omap truthy dicts.

(** [set(key for d in dicts for key in d.keys())] *)
Definition all_keys (dicts : list table) : gset string := ⋃ (dom <$> dicts).

(** The body of the loop over the keys:
    [arrays = [d[key] for d in dicts]] and then
    [np.concatenate([d[key] for d in dicts])]. *)
Definition merge_key (dicts : list table) (key : string) : result ndarray :=
  arrays ← for_list (λ d, getitem d key) dicts;
  arrays' ← for_list (λ d, getitem d key) dicts;
  np_concatenate arrays'.

(** Merge a list of dictionaries with numpy arrays *)
Definition merge_results (dicts : list (option table)) : result table :=
  let dicts := filter_None dicts in
  (* First, get the list of unique keys *)
  let keys := all_keys dicts in
  fill (merge_key dicts) (elements keys) ∅.

(** *** The merger as it is specified *)

(** The per-file results that are not the failure sentinel [None]. *)
Definition surviving (dicts : list (option table)) : list table := omap id dicts.

(** The per-file arrays of one key, in input order. *)
Definition arrays_of (key : string) (dicts : list table) : list ndarray :=
  omap (λ d : table, d !! key) dicts.

(** The table the merger is specified to return: its keys are the union of
    the survivors' keys, and each key holds the concatenation, in input
    order, of that key's per-file arrays. *)
Definition merged_as_specified (dicts : list (option table)) (m : table) : Prop :=
  dom m = all_keys (surviving dicts) ∧
  ∀ key, key ∈ all_keys (surviving dicts) →
    ∃ c, np_concatenate (arrays_of key (surviving dicts)) = Ok c ∧ m !! key = Some c.

(** Every result carries every key of the union. *)
Definition uniform_keys (dicts : list table) : Prop :=
  ∀ d, d ∈ dicts → dom d = all_keys dicts.

(** ** Program state, logging and the state-and-error monad *)

Inductive level : Type := INFO | WARNING.

Inductive log_arg : Type :=
| ArgInt (z : Z)
| ArgStr (s : string)
| ArgKeys (ks : list string).

(** A call [logging.info(fmt % args)] or [logging.warn(fmt % args)]. *)
Record log_record : Type :=
  LogRecord { levelname : level; fmt : string; args : list log_arg }.

(** A call of [np.savez] or [np.savez_compressed]. *)
Record npz_write : Type :=
  NpzWrite { npz_path : string; npz_compressed : bool; npz_data : table }.

Record state : Type := State {
  xsecMap : option (gmap string Q);  (* XsecMap._xsecMap, None until loaded *)
  log : list log_record;             (* the records logged so far, oldest first *)
  written : list npz_write           (* the files written so far, oldest first *)
}.

Definition initial_state : state := State None [] [].

Definition M (A : Type) : Type := state → result A * state.

Global Instance M_ret : MRet M := λ A a s, (Ok a, s).
Global Instance M_bind : MBind M := λ A B f m s,
  match m s with
  | (Ok a, s') => f a s'
  | (Raise e, s') => (Raise e, s')
  end.

Definition lift {A} (r : result A) : M A := λ s, (r, s).

(** The state after some more records have been logged. *)
Definition add_log (s : state) (records : list log_record) : state :=
  State (xsecMap s) (log s ++ records) (written s).

Definition logging_log (lv : level) (f : string) (a : list log_arg) : M unit :=
  λ s, (Ok (), add_log s [LogRecord lv f a]).
Definition logging_info := logging_log INFO.
Definition logging_warn := logging_log WARNING.

Definition np_savez (compressed : bool) (path : string) (data : table) : M unit :=
  λ s, (Ok (), State (xsecMap s) (log s) (written s ++ [NpzWrite path compressed data])).

(** ** File names *)

(** [s.split(sep)] for a one-character separator. *)
Fixpoint split (sep : ascii) (s : string) : list string :=
  match s with
  | EmptyString => [EmptyString]
  | String c s' =>
      if Ascii.eqb c sep then EmptyString :: split sep s'
      else match split sep s' with
           | h :: t => String c h :: t
           | [] => [String c EmptyString]
           end
  end.

(** [os.path.basename(p)]: what follows the last slash. *)
Definition basename (p : string) : string := List.last (split "/" p) EmptyString.

(** [os.path.basename(filename).split('-')[0]] *)
Definition sample_of (filename : string) : string :=
  List.hd EmptyString (split "-" (basename filename)).

Definition is_space (c : ascii) : bool :=
  bool_decide (c ∈ [" "; "009"; "010"; "011"; "012"; "013"]%char).

(** [str.rstrip]: drop the trailing whitespace. *)
Fixpoint rstrip (s : string) : string :=
  match s with
  | EmptyString => EmptyString
  | String c s' =>
      match rstrip s' with
      | EmptyString => if is_space c then EmptyString else String c EmptyString
      | r => String c r
      end
  end.

(** ** The Delphes tree as root2array returns it

    A structured array has one row per event; the leaves of one object
    collection (FatJet, Tower, Track) have one entry per object. *)

Record jet : Type :=
  Jet { FatJet_PT : Q; FatJet_Eta : Q; FatJet_Phi : Q; FatJet_Mass : Q }.
Record tower : Type :=
  Tower { Tower_Eta : Q; Tower_Phi : Q; Tower_E : Q; Tower_Eem : Q }.
Record track : Type :=
  Track { Track_PT : Q; Track_Eta : Q; Track_Phi : Q }.
Record event : Type := Event {
  Event_Number : Z;
  Event_ProcessID : Z;
  Towers : list tower;
  FatJets : list jet;
  Tracks : list track
}.

Definition per_event {A} (objs : event → list A) (leaf : A → Q) (tree : list event)
  : ndarray :=
  ragged_array ((λ e, leaf <$> objs e) <$> tree).

(** [tree[oldkey]]: the column of one field. *)
Definition tree_getitem (tree : list event) (field : string) : result ndarray :=
  if String.eqb field "Event.Number" then Ok (int_array (Event_Number <$> tree))
  else if String.eqb field "Event.ProcessID" then Ok (int_array (Event_ProcessID <$> tree))
  else if String.eqb field "Tower.Eta" then Ok (per_event Towers Tower_Eta tree)
  else if String.eqb field "Tower.Phi" then Ok (per_event Towers Tower_Phi tree)
  else if String.eqb field "Tower.E" then Ok (per_event Towers Tower_E tree)
  else if String.eqb field "Tower.Eem" then Ok (per_event Towers Tower_Eem tree)
  else if String.eqb field "FatJet.PT" then Ok (per_event FatJets FatJet_PT tree)
  else if String.eqb field "FatJet.Eta" then Ok (per_event FatJets FatJet_Eta tree)
  else if String.eqb field "FatJet.Phi" then Ok (per_event FatJets FatJet_Phi tree)
  else if String.eqb field "FatJet.Mass" then Ok (per_event FatJets FatJet_Mass tree)
  else if String.eqb field "Track.PT" then Ok (per_event Tracks Track_PT tree)
  else if String.eqb field "Track.Eta" then Ok (per_event Tracks Track_Eta tree)
  else if String.eqb field "Track.Phi" then Ok (per_event Tracks Track_Phi tree)
  else Raise (ValueError "no field of name").

(** Branch name remapping for convenience *)
Definition branch_dict : list (string * string) := [
  ("Event.Number", "eventNumber");
  ("Event.ProcessID", "proc");
  ("Tower.Eta", "clusEta");
  ("Tower.Phi", "clusPhi");
  ("Tower.E", "clusE");
  ("Tower.Eem", "clusEM");
  ("FatJet.PT", "fatJetPt");
  ("FatJet.Eta", "fatJetEta");
  ("FatJet.Phi", "fatJetPhi");
  ("FatJet.Mass", "fatJetM");
  ("Track.PT", "trackPt");
  ("Track.Eta", "trackEta");
  ("Track.Phi", "trackPhi")
].

(** [for (oldkey, newkey) in branch_dict.items(): data[newkey] = tree[oldkey]] *)
Fixpoint rename_columns (tree : list event) (branches : list (string * string))
    (data : table) : result table :=
  match branches with
  | [] => Ok data
  | (oldkey, newkey) :: rest =>
      col ← tree_getitem tree oldkey;
      rename_columns tree rest (<[newkey := col]> data)
  end.

(** The dict [get_data] builds from the tree of one file. *)
Definition tree_data (tree : list event) : table :=
  <["trackPhi" := per_event Tracks Track_Phi tree]> (
  <["trackEta" := per_event Tracks Track_Eta tree]> (
  <["trackPt" := per_event Tracks Track_PT tree]> (
  <["fatJetM" := per_event FatJets FatJet_Mass tree]> (
  <["fatJetPhi" := per_event FatJets FatJet_Phi tree]> (
  <["fatJetEta" := per_event FatJets FatJet_Eta tree]> (
  <["fatJetPt" := per_event FatJets FatJet_PT tree]> (
  <["clusEM" := per_event Towers Tower_Eem tree]> (
  <["clusE" := per_event Towers Tower_E tree]> (
  <["clusPhi" := per_event Towers Tower_Phi tree]> (
  <["clusEta" := per_event Towers Tower_Eta tree]> (
  <["proc" := int_array (Event_ProcessID <$> tree)]> (
  <["eventNumber" := int_array (Event_Number <$> tree)]> ∅)))))))))))).

(** [[f(x) for x in l]] for an [f] with effects. *)
Fixpoint for_list_M {A B} (f : A → M B) (l : list A) : M (list B) :=
  match l with
  | [] => mret []
  | x :: l' => y ← f x; ys ← for_list_M f l'; mret (y :: ys)
  end.

(** [a, b, c, d = arrays] *)
Definition unpack4 {A} (arrays : list A) : result (A * A * A * A) :=
  match arrays with
  | [a; b; c; d] => Ok (a, b, c, d)
  | _ => Raise (ValueError "wrong number of values to unpack")
  end.

(** The per-event float arrays of a ragged column; a column holding
    anything else cannot be handed to the per-event physics functions. *)
Definition ragged (a : ndarray) : result (list (list Q)) :=
  for_list (λ e, match e with EArr xs => Ok xs | _ => Raise TypeError end) (items a).

(** [np.vectorize(f)(a)] without [otypes]: numpy has to call [f] on the
    first item to find the output type, and refuses an input of size 0. *)
Definition np_vectorize {B} (f : list Q → B) (a : ndarray) : result (list B) :=
  match items a with
  | [] => Raise (ValueError "cannot call `vectorize` on size 0 inputs unless `otypes` is set")
  | _ => ragged a ≫= λ rows : list (list Q), Ok (f <$> rows)
  end.

(** [np.vectorize(f)(xs, ys, zs)] without [otypes], on three columns of one
    length (numpy's broadcasting of a length-1 column is not modelled). *)
Definition np_vectorize3 {A B C D} (f : A → B → C → D)
    (xs : list A) (ys : list B) (zs : list C) : result (list D) :=
  match xs with
  | [] => Raise (ValueError "cannot call `vectorize` on size 0 inputs unless `otypes` is set")
  | _ =>
      if decide (length xs = length ys ∧ length ys = length zs)
      then Ok (zip_with (λ x yz, f x yz.1 yz.2) xs (zip ys zs))
      else Raise (ValueError "operands could not be broadcast together")
  end.

(** [np.logical_or(a, b)] on two boolean columns of one length. *)
Definition np_logical_or (a b : list bool) : result (list bool) :=
  if decide (length a = length b) then Ok (zip_with orb a b)
  else Raise (ValueError "operands could not be broadcast together").

(** The parsed command line. *)
Record arguments : Type := Args {
  input_file_list : list string;
  output_npz : option string;
  compress : bool;
  max_events : option Z;
  num_workers : Z
}.

(** ** A small world to run the pipeline in

    Illustrative physics, three little trees and a reference table with one
    sample. The reader knows four files and raises an IOError for any other
    path. *)
Module Example.

Definition fatjet_cut (pt eta : Q) : bool :=
  Qle_bool 200 pt && Qle_bool (-2) eta && Qle_bool eta 2.
Definition sum_fatjet_mass (fatjet_ms : list Q) : Q := foldr Qplus 0%Q fatjet_ms.
Definition fatjet_deta12 (fatjet_etas : list Q) : Q :=
  match fatjet_etas with
  | eta1 :: eta2 :: _ => (eta1 - eta2)%Q
  | _ => (-1)%Q
  end.
Definition pass_sr4j (n : Z) (m deta : Q) : bool :=
  (4 <=? n) && Qle_bool 800 m && Qle_bool deta (14 # 10).
Definition pass_sr5j (n : Z) (m deta : Q) : bool :=
  (5 <=? n) && Qle_bool 600 m && Qle_bool deta (14 # 10).

Definition event1 : event :=
  Event 1 0 [Tower (1 # 2) 0 30 20]
        [Jet 350 (1 # 2) 0 120; Jet 150 1 3 40] [Track 10 0 0].
Definition event2 : event :=
  Event 2 0 [] [Jet 90 0 1 15] [Track 5 1 1; Track 7 (-1) 2].
Definition event3 : event :=
  Event 3 0 [Tower 0 1 10 5] [Jet 500 (-1) 2 200] [].

Definition tree_three : list event := [event1; event2; event3].
Definition tree_soft : list event := [event2; event2].

Definition root2array (files treename : string) (branches : list string)
    (stop : option Z) : result (list event) :=
  if String.eqb files "data/qcd_JZ3-0001.root" then Ok tree_three
  else if String.eqb files "data/qcd_JZ3-0002.root" then Ok tree_soft
  else if String.eqb files "data/unknown-0001.root" then Ok tree_three
  else if String.eqb files "data/empty-0001.root" then Ok []
  else Raise (IOError "file not found").

Definition load_xsec_map : result (gmap string Q) :=
  Ok (<["qcd_JZ3" := 26454%Q]> ∅).

Definition line (s : string) : string := s +:+ String "010" EmptyString.

Definition readlines (path : string) : result (list string) :=
  if String.eqb path "files.txt"
  then Ok [line "data/qcd_JZ3-0001.root"; line "data/missing-0001.root";
           line "data/qcd_JZ3-0002.root"]
  else if String.eqb path "unreadable.txt"
  then Ok [line "data/missing-0001.root"; line "data/missing-0002.root"]
  else Raise (IOError "no such file").

(** Two per-file results with the same keys around a failure sentinel, and
    two with different keys. *)
Definition same_keys : list (option table) :=
  [Some (<["a" := int_array [1]]> (<["b" := float_array [2%Q]]> ∅));
   None;
   Some (<["a" := bool_array [true]]> (<["b" := float_array [3%Q; 4%Q]]> ∅))].
Definition other_keys : list (option table) :=
  [Some (<["a" := int_array [1]]> ∅); Some (<["b" := int_array [2]]> ∅)].

(** Two npz files as prepare_data writes them: one with two events, one
    without the jet azimuths. *)
Definition npz_two_events : table :=
  <["fatJetPt" := ragged_array [[350%Q; 250%Q]; [500%Q]]]>
  (<["fatJetEta" := ragged_array [[1 # 2; 1]; [-1]]%Q]>
  (<["fatJetPhi" := ragged_array [[0; 3]; [2]]%Q]>
  (<["fatJetM" := ragged_array [[120; 40]; [200]]%Q]>
  (<["passSR" := bool_array [false; true]]> ∅)))).

Definition np_load (file_name : string) : result table :=
  if String.eqb file_name "npz/rpv_1400_850.npz" then Ok npz_two_events
  else if String.eqb file_name "npz/qcd_JZ3.npz"
  then Ok (delete "fatJetPhi" npz_two_events)
  else Raise (IOError "no such file").

End Example.

Section Pipeline.

Set Default Proof Using "Type".

(** *** What lies outside prepare_data.py *)

(** The numeric physics of physics_selections.py, fixed only by contract:
    the kinematic cut on one jet (pt, eta), the summed jet mass, the
    separation of the two leading jets and the two region definitions. *)
Variable fatjet_cut : Q → Q → bool.
Variable sum_fatjet_mass : list Q → Q.
Variable fatjet_deta12 : list Q → Q.
Variables pass_sr4j pass_sr5j : Z → Q → Q → bool.

(** [rnp.root2array(files, treename, branches, stop)], the external reader. *)
Variable root2array : string → string → list string → option Z → result (list event).

(** [XsecMap.load_xsec_map()]: the content of data/cross_sections.txt. *)
Variable load_xsec_map : result (gmap string Q).

(** [open(path).readlines()] *)
Variable readlines : string → result (list string).

(** *** physics_selections.py *)

(** Modelled from the spec: the scan behind [select_fatjets], from the jet
    with index [i] on. *)
Fixpoint select_from (i : nat) (fatjet_pts fatjet_etas : list Q) : list nat :=
  match fatjet_pts, fatjet_etas with
  | pt :: pts, eta :: etas =>
      if fatjet_cut pt eta then i :: select_from (S i) pts etas
      else select_from (S i) pts etas
  | _, _ => []
  end.

(** Modelled from the spec: [select_fatjets] of physics_selections.py, which
    is not among the sources. One event's jet pt and eta arrays go in, the
    index list of the jets passing the kinematic cut comes out; an event
    without jets gives the empty index list. *)
Definition select_fatjets (fatjet_pts fatjet_etas : list Q) : list nat :=
  select_from 0 fatjet_pts fatjet_etas.

(** [x[idx]] for an index list; an index out of range is an IndexError. *)
Definition take_indices (x : list Q) (idx : list nat) : result (list Q) :=
  for_list (λ i, match x !! i with Some v => Ok v | None => Raise IndexError end) idx.

(** [f(x, idx)] over the events of a column and their index lists. *)
Fixpoint per_event_indices (rows : list (list Q)) (obj_idx : list (list nat))
  : result (list (list Q)) :=
  match rows, obj_idx with
  | [], [] => Ok []
  | x :: rows', idx :: obj_idx' =>
      y ← take_indices x idx; ys ← per_event_indices rows' obj_idx'; Ok (y :: ys)
  | _, _ => Raise (ValueError "operands could not be broadcast together")
  end.

(** Modelled from the spec: [filter_objects] of physics_selections.py, which
    is not among the sources. It sub-selects the object-level entries of
    each ragged column according to the per-event index lists, the same
    index lists for every column, so co-indexed columns stay aligned. *)
Definition filter_objects (obj_idx : list (list nat)) (obj_arrays : list ndarray)
  : result (list ndarray) :=
  for_list (λ a, rows ← ragged a;
                 ragged_array <$> per_event_indices rows obj_idx) obj_arrays.

(** Modelled from the spec: [filter_events] of physics_selections.py, which
    is not among the sources. It applies one boolean event mask to every
    column it is given. *)
Definition filter_events (event_idx : list bool) (arrays : list ndarray)
  : result (list ndarray) :=
  for_list (λ a, mask_index a event_idx) arrays.

(** Modelled from the spec: [is_baseline_event] of physics_selections.py,
    which is not among the sources. Baseline selection requires at least
    one object to survive the object-level selection. *)
Definition is_baseline_event (fatjet_pts : list Q) : bool :=
  bool_decide (0 < length fatjet_pts)%nat.

(** The jets of an event that pass the kinematic cut, and whether the
    event passes the baseline selection. *)
Definition selected (e : event) : list jet :=
  filter (λ j, fatjet_cut (FatJet_PT j) (FatJet_Eta j) = true) (FatJets e).
Definition passes_baseline (e : event) : bool :=
  is_baseline_event (FatJet_PT <$> selected e).

(** *** XsecMap *)

Definition XsecMap_get_xsec (sample : string) : M Q := λ s,
  match xsecMap s with
  | None =>
      match load_xsec_map with
      | Ok m =>
          let s' := State (Some m) (log s) (written s) in
          match m !! sample with
          | Some x => (Ok x, s')
          | None => (Raise (KeyError sample), s')
          end
      | Raise e => (Raise e, s)
      end
  | Some m =>
      match m !! sample with
      | Some x => (Ok x, s)
      | None => (Raise (KeyError sample), s)
      end
  end.

(** The cross-section reference table as a process in state [s] sees it:
    the cached table, or the one that the first lookup will load. *)
Definition xsec_table (s : state) : result (gmap string Q) :=
  match xsecMap s with
  | Some m => Ok m
  | None => load_xsec_map
  end.

(** Parse the sample name from the filename and lookup its xross section *)
Definition get_xsec (filename : string) : M Q :=
  let sample := sample_of filename in
  XsecMap_get_xsec sample.

(** *** get_data *)

(** Applies root_numpy to get out a numpy array. ([suppress_stdout_stderr]
    only silences the reader and is left out.) *)
Definition get_data (files : string) (branches : list (string * string))
    (treename : string) (stop : option Z) : M (option table) :=
  match root2array files treename (branches.*1) stop with
  | Raise (IOError e) =>
      _ ← logging_warn "WARNING: root2array gave an IOError: %s" [ArgStr e];
      mret None
  | Raise e => lift (Raise e)
  | Ok tree =>
      (* Convert immutable structured array into dictionary of arrays *)
      data ← lift (rename_columns tree branches ∅);
      mret (Some data)
  end.

(** *** process_events *)

(** Object selection (the first statements of [process_events]). *)
Definition select_objects (data : table)
  : result (ndarray * ndarray * ndarray * ndarray) :=
  fatJetPt ← getitem data "fatJetPt";
  fatJetEta ← getitem data "fatJetEta";
  pts ← ragged fatJetPt;
  etas ← ragged fatJetEta;
  jetIdx ← (if decide (length pts = length etas)
            then Ok (zip_with select_fatjets pts etas)
            else Raise (ValueError "operands could not be broadcast together"));
  fatJetPhi ← getitem data "fatJetPhi";
  fatJetM ← getitem data "fatJetM";
  filter_objects jetIdx [fatJetPt; fatJetEta; fatJetPhi; fatJetM] ≫= unpack4.

(** [skimIdx], the baseline event mask. *)
Definition baseline_mask (data : table) : result (list bool) :=
  '(fatJetPt, _, _, _) ← select_objects data;
  np_vectorize is_baseline_event fatJetPt.

(** The quantities needed for the signal-region selection and the region
    flags (the [if num_baseline > 0: ... else: ...] of [process_events]):
    [sumFatJetM], [passSR4J], [passSR5J] and [passSR]. *)
Definition sr_quantities (num_baseline : Z) (fatJetPt fatJetEta fatJetM : ndarray)
  : result (ndarray * ndarray * ndarray * ndarray) :=
  if decide (0 < num_baseline) then
    numFatJet ← np_vectorize (λ x, Z.of_nat (length x)) fatJetPt;
    sumFatJetM ← np_vectorize sum_fatjet_mass fatJetM;
    fatJetDEta12 ← np_vectorize fatjet_deta12 fatJetEta;
    (* Signal-region event selection *)
    passSR4J ← np_vectorize3 pass_sr4j numFatJet sumFatJetM fatJetDEta12;
    passSR5J ← np_vectorize3 pass_sr5j numFatJet sumFatJetM fatJetDEta12;
    passSR ← np_logical_or passSR4J passSR5J;
    Ok (float_array sumFatJetM, bool_array passSR4J,
        bool_array passSR5J, bool_array passSR)
  else
    (* numFatJet = sumFatJetM = fatJetDEta12 = np.zeros(0)
       passSR4J = passSR5J = passSR = np.zeros(0, dtype=np.bool) *)
    Ok (np_zeros0 DFloat, np_zeros0 DBool, np_zeros0 DBool, np_zeros0 DBool).

(** The keys of the dict that [process_events] prepares before it skims
    the remaining columns. *)
Definition skim_keys : gset string :=
  list_to_set ["fatJetPt"; "fatJetEta"; "fatJetPhi"; "fatJetM";
               "sumFatJetM"; "passSR4J"; "passSR5J"; "passSR"].

(** [process_events] up to the skimming of the remaining columns: the
    skimmed table and the two counters [num_total] and [num_baseline]. *)
Definition skim_events (data : table) : M (table * Z * Z) :=
  (* Object selection *)
  '(fatJetPt, fatJetEta, fatJetPhi, fatJetM) ← lift (select_objects data);
  (* Baseline event selection *)
  skimIdx ← lift (np_vectorize is_baseline_event fatJetPt);
  '(fatJetPt, fatJetEta, fatJetPhi, fatJetM) ←
    lift (filter_events skimIdx [fatJetPt; fatJetEta; fatJetPhi; fatJetM] ≫= unpack4);
  let num_baseline := np_sum_bool skimIdx in
  let num_total := Z.of_nat (length skimIdx) in
  _ ← logging_info "Baseline selected events: %d / %d"
        [ArgInt num_baseline; ArgInt num_total];
  (* Calculate quantities needed for SR selection *)
  '(sumFatJetM, passSR4J, passSR5J, passSR) ←
    lift (sr_quantities num_baseline fatJetPt fatJetEta fatJetM);
  (* Prepare the skimmed results *)
  let skimData : table :=
    <["fatJetPt" := fatJetPt]> (<["fatJetEta" := fatJetEta]> (
    <["fatJetPhi" := fatJetPhi]> (<["fatJetM" := fatJetM]> (
    <["sumFatJetM" := sumFatJetM]> (<["passSR4J" := passSR4J]> (
    <["passSR5J" := passSR5J]> (<["passSR" := passSR]> ∅))))))) in
  (* Get the remaining unskimmed columns, and skim them *)
  let keys := dom data ∖ dom skimData in
  skimData ← lift (fill (λ k, a ← getitem data k; mask_index a skimIdx)
                        (elements keys) skimData);
  mret (skimData, num_total, num_baseline).

(** Applies physics selections and filtering *)
Definition process_events (data : table) : M table :=
  '(skimData, num_total, num_baseline) ← skim_events data;
  (* Finally, add some bookkeeping data *)
  let skimData := <["totalEvents" := int_array [num_total]]> skimData in
  let skimData := <["skimEvents" := int_array [num_baseline]]> skimData in
  mret skimData.

(** *** filter_delphes_to_numpy *)

(** Processes one file by converting to numpy and applying filtering *)
Definition filter_delphes_to_numpy (root_file : string) (max_events : option Z)
  : M (option table) :=
  (* Convert the data to numpy *)
  _ ← logging_info "Now processing: %s" [ArgStr root_file];
  data ← get_data root_file branch_dict "Delphes" max_events;
  match data with
  | None => mret None
  | Some data =>
      (* Apply physics *)
      _ ← logging_info "Applying event selection" [];
      skimData ← process_events data;
      (* Add the file name to the (meta) data *)
      let skimData :=
        <["inputFile" := object_array [EStr (basename root_file)]]> skimData in
      (* Add the cross section for this file *)
      xsec ← get_xsec root_file;
      let skimData := <["xsec" := float_array [xsec]]> skimData in
      mret (Some skimData)
  end.

(** *** process_files_parallel *)

(** Process the input files in parallel with MP. The workers share nothing
    and the coordinator collects [r.get()] in submission order, so the pool
    is run here one task after the other; [r.get()] raises what its task
    raised. *)
Definition process_files_parallel (input_files : list string) (num_workers : Z)
    (max_events : option Z) : M table :=
  (* Create a pool of workers *)
  _ ← logging_info "Starting process pool of %d workers" [ArgInt num_workers];
  _ ← lift (if decide (num_workers < 1)
            then Raise (ValueError "Number of processes must be at least 1")
            else Ok ());
  (* Convert to numpy structure in parallel *)
  task_data ← for_list_M (λ f, filter_delphes_to_numpy f max_events) input_files;
  (* Merge the results from each task *)
  _ ← logging_info "Merging results from parallel tasks" [];
  lift (merge_results task_data).

(** *** main *)

Fixpoint read_input_lists (lists : list string) (input_files : list string)
  : result (list string) :=
  match lists with
  | [] => Ok input_files
  | input_list :: rest =>
      lines ← readlines input_list;
      read_input_lists rest (input_files ++ (rstrip <$> lines))
  end.

(** Main execution function *)
Definition main (args : arguments) : M unit :=
  _ ← logging_info "Initializing" [];
  (* Get the input file list *)
  input_files ← lift (read_input_lists (input_file_list args) []);
  _ ← logging_info "Processing %i input files"
        [ArgInt (Z.of_nat (length input_files))];
  (* Parallel processing *)
  data ← process_files_parallel input_files (num_workers args) (max_events args);
  (* Abort gracefully if no events survived skimming *)
  skimEvents ← lift (getitem data "skimEvents");
  if decide (np_sum_int skimEvents = 0) then
    logging_info "No events selected by filter. Exiting." []
  else
    (* Write results to npz file *)
    _ ← match output_npz args with
        | Some path =>
            _ ← logging_info "Writing to file %s" [ArgStr path];
            _ ← logging_info "Output keys: %s" [ArgKeys (elements (dom data))];
            np_savez (compress args) path data
        | None => mret ()
        end;
    logging_info "Done!" [].

(** *** Notions used in the statements *)

(** What a step may do to the state: it writes no file and it leaves the
    cross-section reference table as it is. *)
Definition steps_to (s s' : state) : Prop :=
  written s' = written s ∧ xsec_table s' = xsec_table s.

Definition preserves {A} (m : M A) : Prop :=
  ∀ s r s', m s = (r, s') → steps_to s s'.

(** The Per-File Processor returned a populated dictionary or [None]. *)
Definition dict_or_None (r : result (option table)) : Prop :=
  r = Ok None ∨ ∃ d : table, r = Ok (Some d) ∧ d ≠ ∅.

(** The keys of every per-file result. *)
Definition per_file_keys : gset string :=
  {["xsec"]} ∪ ({["inputFile"]} ∪ ({["skimEvents"]} ∪ ({["totalEvents"]} ∪
    (skim_keys ∪ dom (tree_data []))))).

(** The number of events of a file that pass the baseline selection (0 for
    a file that cannot be read or processed). *)
Definition survivors (root_file : string) (max_events : option Z) : Z :=
  match root2array root_file "Delphes" (branch_dict.*1) max_events with
  | Ok tree =>
      match baseline_mask (tree_data tree) with
      | Ok skimIdx => np_sum_bool skimIdx
      | Raise _ => 0
      end
  | Raise _ => 0
  end.

(** Whether the reader returns a tree for the file. *)
Definition is_read (root_file : string) (max_events : option Z) : bool :=
  match root2array root_file "Delphes" (branch_dict.*1) max_events with
  | Ok _ => true
  | Raise _ => false
  end.

(** The number of baseline-surviving events in a batch. *)
Definition total_survivors (input_files : list string) (max_events : option Z) : Z :=
  foldr Z.add 0 ((λ f, survivors f max_events) <$> input_files).

(** The unknown sample of [root_file] makes the lookup fail with a KeyError
    that leaves the Per-File Processor and aborts every batch the file is
    part of. *)
Definition unknown_sample_aborts (root_file : string) (max_events : option Z)
    (s : state) : Prop :=
  (filter_delphes_to_numpy root_file max_events s).1
    = Raise (KeyError (sample_of root_file)) ∧
  ∀ input_files num_workers, root_file ∈ input_files →
    raises (process_files_parallel input_files num_workers max_events s).1.

(** Whether a character occurs in a string, whether a string consists of
    whitespace, and whether it ends in whitespace. *)
Fixpoint occurs (c : ascii) (s : string) : bool :=
  match s with
  | EmptyString => false
  | String c' s' => Ascii.eqb c' c || occurs c s'
  end.
Fixpoint all_space (s : string) : bool :=
  match s with
  | EmptyString => true
  | String c s' => is_space c && all_space s'
  end.
Fixpoint ends_in_space (s : string) : bool :=
  match s with
  | EmptyString => false
  | String c EmptyString => is_space c
  | String _ s' => ends_in_space s'
  end.

(** ** run_classifiers.py *)

(** *** What lies outside run_classifiers.py *)

(** [np.load(file_name)]: the arrays of an npz file, or the exception raised
    when the file cannot be opened. *)
Variable np_load : string → result table.

(** *** Rank-2 float arrays *)

(** The number of columns and the rows; [np.full] and [np.hstack] fix the
    number of columns also when there is no row. *)
Record array2 : Type := Array2 { ncols : Z; rows : list (list Q) }.

(** [a.shape] *)
Definition shape (a : array2) : Z * Z := (Z.of_nat (length (rows a)), ncols a).

(** [np.full((length, num_objects), default_val)] *)
Definition np_full (length : nat) (num_objects : Z) (default_val : Q) : result array2 :=
  if decide (num_objects < 0)
  then Raise (ValueError "negative dimensions are not allowed")
  else Ok (Array2 num_objects
             (replicate length (replicate (Z.to_nat num_objects) default_val))).

(** [l[:k]]: a negative [k] counts from the end. *)
Definition slice_to {A} (k : Z) (l : list A) : list A :=
  if decide (k < 0) then take (length l - Z.to_nat (- k)) l else take (Z.to_nat k) l.

(** [a[:k]] on an array. *)
Definition ndarray_slice_to (k : Z) (a : ndarray) : ndarray :=
  NDArray (dt a) (slice_to k (items a)).

(** [row[:k] = values]: the values take the place of the slice; numpy
    spreads a single value over the slice and refuses any other mismatch of
    the lengths. *)
Definition assign_slice_to (k : Z) (values row : list Q) : result (list Q) :=
  let n := length (slice_to k row) in
  if decide (length values = n) then Ok (values ++ drop n row)%list
  else match values with
       | [v] => Ok (replicate n v ++ drop n row)%list
       | _ => Raise (ValueError "could not broadcast input array")
       end.

(** [output_array[i,:k] = values] *)
Definition setitem_row_slice_to (output_array : array2) (i : nat) (k : Z)
    (values : list Q) : result array2 :=
  match rows output_array !! i with
  | Some row =>
      row' ← assign_slice_to k values row;
      Ok (Array2 (ncols output_array) (<[i := row']> (rows output_array)))
  | None => Raise IndexError
  end.

(** [array[i]] where the code asks for its [size] and slices it: a float
    array. An item of another kind has no [size] or cannot be sliced; the
    failure is reported as a TypeError. *)
Definition item_array (array : ndarray) (i : nat) : result (list Q) :=
  match items array !! i with
  | Some (EArr a) => Ok a
  | Some _ => Raise TypeError
  | None => Raise IndexError
  end.

(** [for x in l: acc = body(x, acc)], stopping at the first exception. *)
Fixpoint for_each {A S} (body : A → S → result S) (l : list A) (acc : S) : result S :=
  match l with
  | [] => Ok acc
  | x :: l' => acc' ← body x acc; for_each body l' acc'
  end.

(** [np.hstack] on rank-2 arrays: side by side, when they have the same
    number of rows. *)
Definition hstack2 (a b : array2) : result array2 :=
  if decide (length (rows a) = length (rows b))
  then Ok (Array2 (ncols a + ncols b) (zip_with app (rows a) (rows b)))
  else Raise (ValueError "all the input array dimensions except for the concatenation axis must match exactly").

Definition np_hstack (arrays : list array2) : result array2 :=
  match arrays with
  | [] => Raise (ValueError "need at least one array to concatenate")
  | a :: arrays' => for_each (λ b acc, hstack2 acc b) arrays' a
  end.

(** *** The npz reader *)

(** A call [logging.error(fmt % args)]. *)
Record error_record : Type :=
  LogError { error_fmt : string; error_args : list log_arg }.

(** [f[key]] on an open npz file. *)
Definition npz_getitem (f : table) (key : string) : result ndarray :=
  match f !! key with
  | Some a => Ok a
  | None => Raise (KeyError (key +:+ " is not a file in the archive"))
  end.

(** Retrieves the list of keys from an npz file *)
Definition get_file_keys (file_name : string) : result (list string) :=
  f ← np_load file_name; Ok (elements (dom f)).

(** A helper function for retrieving some specified arrays from one npz
    file: the outcome and the errors logged. *)
Definition retrieve_data (file_name : string) (keys : list string)
  : result (list ndarray) * list error_record :=
  match np_load file_name with
  | Ok f =>
      match for_list (npz_getitem f) keys with
      | Raise (KeyError k) =>
          (Raise (KeyError k),
           [LogError "Requested key not found. Available keys: %s"
                     [ArgKeys (elements (dom f))]])
      | data => (data, [])
      end
  | Raise e => (Raise e, [])
  end.

(** *** Features *)

(** Takes an array of object arrays and returns a fixed rank-2 array.
    Clips and pads each element as necessary. *)
Definition parse_object_features (array : ndarray) (num_objects : Z) (default_val : Q)
  : result array2 :=
  (* Create the output first *)
  let length := List.length (items array) in
  output_array ← np_full length num_objects default_val;
  (* Fill the output *)
  for_each (λ i output_array,
      a ← item_array array i;
      let k := Z.min num_objects (Z.of_nat (List.length a)) in
      setitem_row_slice_to output_array i k (slice_to k a))
    (seq 0 length) output_array.

(** Load the model features from a sample file *)
Definition prepare_sample_features (sample_file : string) (num_jets : Z)
    (max_events : option Z) : result array2 * list error_record :=
  match retrieve_data sample_file ["fatJetPt"; "fatJetEta"; "fatJetPhi"; "fatJetM"] with
  | (Ok data, logged) =>
      (match data with
       | d0 :: _ =>
           let num_events := len d0 in
           let data :=
             match max_events with
             | Some n =>
                 if decide (n < num_events) then ndarray_slice_to n <$> data else data
             | None => data
             end in
           arrays ← for_list (λ a, parse_object_features a num_jets 0%Q) data;
           np_hstack arrays
       | [] => Raise IndexError
       end, logged)
  | (Raise e, logged) => (Raise e, logged)
  end.

(** The number of events that a limit of [max_events] leaves of
    [num_events]: a limit that is not negative keeps at most as many events,
    a negative one drops as many events from the end. *)
Definition kept_events (max_events : option Z) (num_events : nat) : nat :=
  match max_events with
  | None => num_events
  | Some n =>
      if decide (n < 0) then (num_events - Z.to_nat (- n))%nat
      else Nat.min (Z.to_nat n) num_events
  end.

(** * Properties of the pipeline *)

(** [tauto] reads a function in the context as an implication; the
    parameters of the pipeline are kept out of its way. *)
Ltac prop_tauto :=
  try clear np_load; try clear readlines; try clear root2array; try clear load_xsec_map;
  try clear pass_sr5j; try clear pass_sr4j; try clear fatjet_deta12;
  try clear sum_fatjet_mass; try clear fatjet_cut;
  tauto.

(** ** The error monad *)

Lemma bind_Ok {A B} (k : A → result B) (a : A) : (Ok a ≫= k) = k a.
Proof. reflexivity. Qed.

Lemma bind_Raise {A B} (k : A → result B) (e : exn) : (Raise e ≫= k) = Raise e.
Proof. reflexivity. Qed.

Lemma bind_Ok_inv {A B} (k : A → result B) (r : result A) (b : B) :
  (r ≫= k) = Ok b → ∃ a, r = Ok a ∧ k a = Ok b.
Proof. destruct r as [a|e]; [eauto | discriminate]. Qed.

Lemma fmap_Ok_inv {A B} (g : A → B) (r : result A) (b : B) :
  g <$> r = Ok b → ∃ a, r = Ok a ∧ b = g a.
Proof. destruct r as [a|e]; [intros [= <-]; eauto | discriminate]. Qed.

Section ForList.
Context {A B : Type} (f : A → result B).

Lemma for_list_Ok (l : list A) (l' : list B) :
  for_list f l = Ok l' ↔ Forall2 (λ x y, f x = Ok y) l l'.
Proof.
  revert l'. induction l as [|x l IH]; intros l'; simpl.
  - split; [intros [= <-]; constructor | by inversion 1].
  - destruct (f x) as [y|e] eqn:Hx; rewrite ?bind_Ok, ?bind_Raise.
    + destruct (for_list f l) as [ys|e] eqn:Hl; rewrite ?bind_Ok, ?bind_Raise.
      * split.
        -- intros [= <-]. constructor; [done | by apply IH].
        -- inversion 1 as [|? y' ? ys' Hy Hys]; subst.
           apply IH in Hys. congruence.
      * split; [discriminate |].
        inversion 1 as [|? y' ? ys' Hy Hys]; subst.
        apply IH in Hys. discriminate.
    + split; [discriminate |].
      inversion 1 as [|? y' ? ys' Hy Hys]; subst. congruence.
Qed.

Lemma for_list_length (l : list A) (l' : list B) :
  for_list f l = Ok l' → length l' = length l.
Proof. intros H%for_list_Ok. symmetry. by eapply Forall2_length. Qed.

Lemma for_list_fmap (g : A → B) (l : list A) :
  (∀ x, x ∈ l → f x = Ok (g x)) → for_list f l = Ok (g <$> l).
Proof.
  intros H. apply for_list_Ok. induction l as [|x l IH]; simpl; constructor.
  - apply H. left.
  - apply IH. intros y Hy. apply H. by right.
Qed.

Lemma for_list_Raise (l : list A) (e : exn) :
  for_list f l = Raise e → ∃ x, x ∈ l ∧ f x = Raise e.
Proof.
  induction l as [|x l IH]; simpl; [discriminate |].
  destruct (f x) as [y|e'] eqn:Hx; rewrite ?bind_Ok, ?bind_Raise.
  - destruct (for_list f l) as [ys|e'] eqn:Hl; rewrite ?bind_Ok, ?bind_Raise;
      [discriminate |].
    intros [= ->]. destruct IH as (z & Hz & Hfz); [done |].
    exists z. split; [by right | done].
  - intros [= ->]. exists x. split; [left | done].
Qed.

Lemma for_list_is_Ok (l : list A) :
  (∀ x, x ∈ l → ∃ y, f x = Ok y) → ∃ l', for_list f l = Ok l'.
Proof.
  intros H. destruct (for_list f l) as [l'|e] eqn:Hl; [eauto |].
  apply for_list_Raise in Hl as (x & Hx & Hfx).
  destruct (H x Hx) as [y Hy]. congruence.
Qed.
End ForList.

(** ** Loops that fill a dict *)

Section Fill.
Context (f : string → result ndarray).

Lemma fill_Ok_lookup (ks : list string) (acc m : table) :
  fill f ks acc = Ok m →
  ∀ k, (k ∈ ks → ∃ v, f k = Ok v ∧ m !! k = Some v) ∧ (k ∉ ks → m !! k = acc !! k).
Proof.
  revert acc. induction ks as [|k0 ks IH]; intros acc; simpl.
  - intros [= <-] k. split; [by intros ?%elem_of_nil | done].
  - destruct (f k0) as [v0|e] eqn:H0; rewrite ?bind_Ok, ?bind_Raise; [|discriminate].
    intros Hm k. specialize (IH _ Hm k) as [IHin IHout].
    destruct (decide (k ∈ ks)) as [Hin|Hout].
    + split; [by auto | intros Hk; exfalso; apply Hk; by right].
    + rewrite (IHout Hout). split.
      * intros [->|?]%elem_of_cons; [|done].
        exists v0. by rewrite lookup_insert_eq.
      * intros Hk. apply lookup_insert_ne. intros ->. apply Hk. left.
Qed.

Lemma fill_Raise (ks : list string) (acc : table) (e : exn) :
  fill f ks acc = Raise e → ∃ k, k ∈ ks ∧ f k = Raise e.
Proof.
  revert acc. induction ks as [|k0 ks IH]; intros acc; simpl; [discriminate |].
  destruct (f k0) as [v0|e'] eqn:H0; rewrite ?bind_Ok, ?bind_Raise.
  - intros (k & Hk & Hfk)%IH. exists k. split; [by right | done].
  - intros [= ->]. exists k0. split; [left | done].
Qed.

Lemma fill_is_Ok (ks : list string) (acc : table) :
  (∀ k, k ∈ ks → ∃ v, f k = Ok v) → ∃ m, fill f ks acc = Ok m.
Proof.
  intros H. destruct (fill f ks acc) as [m|e] eqn:Hm; [eauto |].
  apply fill_Raise in Hm as (k & Hk & Hfk).
  destruct (H k Hk) as [v Hv]. congruence.
Qed.

Lemma fill_raises (ks : list string) (acc : table) (k : string) (e : exn) :
  k ∈ ks → f k = Raise e →
  ∃ k' e', k' ∈ ks ∧ f k' = Raise e' ∧ fill f ks acc = Raise e'.
Proof.
  intros Hk Hfk. destruct (fill f ks acc) as [m|e'] eqn:Hm.
  - apply fill_Ok_lookup with (k := k) in Hm as [Hin _].
    destruct (Hin Hk) as (v & Hv & _). congruence.
  - destruct (fill_Raise _ _ _ Hm) as (k' & Hk' & Hfk'). eauto.
Qed.
End Fill.

(** ** The Result Merger *)

Lemma elem_of_all_keys (dicts : list table) (key : string) :
  key ∈ all_keys dicts ↔ ∃ d, d ∈ dicts ∧ key ∈ dom d.
Proof.
  unfold all_keys. rewrite elem_of_union_list. split.
  - intros (X & (d & -> & Hd)%list_elem_of_fmap & Hk). eauto.
  - intros (d & Hd & Hk). exists (dom d). split; [|done].
    apply list_elem_of_fmap. eauto.
Qed.

Lemma filter_None_surviving (dicts : list (option table)) :
  filter_None dicts = filter (λ d, d ≠ ∅) (surviving dicts).
Proof.
  unfold filter_None, surviving.
  induction dicts as [|[m|] dicts IH]; [done | | done].
  cbn [omap list_omap truthy id]. rewrite filter_cons, <- IH.
  destruct (decide (m = ∅)) as [->|Hne].
  - by rewrite decide_False by (intros H; by apply H).
  - by rewrite decide_True by done.
Qed.

Lemma filter_None_all_None (dicts : list (option table)) :
  Forall (λ d, d = None) dicts → filter_None dicts = [].
Proof. induction 1 as [|d dicts Hd _ IH]; [done |]. by subst d. Qed.

Lemma getitem_Ok (d : table) (key : string) (a : ndarray) :
  getitem d key = Ok a ↔ d !! key = Some a.
Proof. unfold getitem. destruct (d !! key); split; congruence. Qed.

Lemma getitem_Raise (d : table) (key : string) (e : exn) :
  getitem d key = Raise e ↔ d !! key = None ∧ e = KeyError key.
Proof.
  unfold getitem. destruct (d !! key) as [a|].
  - split; [discriminate | by intros [? _]].
  - split; [by intros [= <-] | by intros [_ ->]].
Qed.

(** With every key present, the list comprehension collects the arrays of
    the key. *)
Lemma for_list_getitem (dicts : list table) (key : string) :
  (∀ d, d ∈ dicts → key ∈ dom d) →
  for_list (λ d, getitem d key) dicts = Ok (arrays_of key dicts).
Proof.
  intros H. apply for_list_Ok. unfold arrays_of.
  induction dicts as [|d dicts IH]; simpl; [constructor |].
  destruct (d !! key) as [a|] eqn:Hd.
  - constructor; [by apply getitem_Ok |].
    apply IH. intros d' Hd'. apply H. by right.
  - exfalso. assert (key ∈ dom d) as Hk by (apply H; left).
    apply elem_of_dom in Hk as [? ?]. congruence.
Qed.

Lemma merge_key_Ok (dicts : list table) (key : string) :
  dicts ≠ [] → (∀ d, d ∈ dicts → key ∈ dom d) →
  ∃ c, merge_key dicts key = Ok c ∧ np_concatenate (arrays_of key dicts) = Ok c.
Proof.
  intros Hne H. unfold merge_key. rewrite (for_list_getitem _ _ H), !bind_Ok.
  pose proof (for_list_length _ _ _ (for_list_getitem _ _ H)) as Hlen.
  destruct (arrays_of key dicts) as [|a rest] eqn:Ha.
  - destruct dicts; [done | discriminate].
  - simpl. eauto.
Qed.

(** The only way the loop body fails on a key of the union is a result that
    lacks the key, and then it is a KeyError for that key. *)
Lemma merge_key_Raise (dicts : list table) (key : string) (e : exn) :
  key ∈ all_keys dicts → merge_key dicts key = Raise e →
  e = KeyError key ∧ ∃ d, d ∈ dicts ∧ key ∉ dom d.
Proof.
  intros Hkey Hm.
  destruct (for_list (λ d, getitem d key) dicts) as [arrays|e'] eqn:Hl.
  - exfalso. unfold merge_key in Hm. rewrite Hl, !bind_Ok in Hm.
    apply for_list_length in Hl.
    destruct arrays as [|a rest]; [|discriminate].
    apply elem_of_all_keys in Hkey as (d & Hd & _).
    destruct dicts; [by apply elem_of_nil in Hd | discriminate].
  - unfold merge_key in Hm. rewrite Hl, bind_Raise in Hm. injection Hm as ->.
    apply for_list_Raise in Hl as (d & Hd & [Hnone ->]%getitem_Raise).
    split; [done |]. exists d. split; [done |].
    by apply not_elem_of_dom.
Qed.

Lemma merge_key_missing (dicts : list table) (d : table) (key : string) :
  d ∈ dicts → key ∉ dom d → merge_key dicts key = Raise (KeyError key).
Proof.
  intros Hd Hk.
  destruct (for_list (λ d, getitem d key) dicts) as [arrays|e'] eqn:Hl.
  - apply for_list_Ok in Hl.
    apply list_elem_of_lookup in Hd as [i Hi].
    destruct (Forall2_lookup_l _ _ _ _ _ Hl Hi) as (a & _ & Ha).
    apply getitem_Ok in Ha. exfalso. apply Hk, elem_of_dom. eauto.
  - unfold merge_key. rewrite Hl, bind_Raise.
    apply for_list_Raise in Hl as (d' & _ & [_ ->]%getitem_Raise). done.
Qed.

Lemma merge_results_Nones (dicts : list (option table)) :
  Forall (λ d, d = None) dicts → merge_results dicts = Ok ∅.
Proof.
  intros H. unfold merge_results. rewrite (filter_None_all_None _ H).
  unfold all_keys. simpl. by rewrite elements_empty.
Qed.

(** C5: merging a list that consists only of failure sentinels does not
    raise; it returns the empty dataset, which has zero keys and so zero
    rows under every key. *)
Theorem merge_results_all_None (dicts : list (option table)) :
  Forall (λ d, d = None) dicts →
  ∃ m, merge_results dicts = Ok m ∧ m = ∅ ∧ size m = 0%nat ∧
       ∀ key col, m !! key = Some col → len col = 0.
Proof.
  intros H. exists ∅. split; [by apply merge_results_Nones |].
  split; [done | split; [done |]].
  intros key col Hcol. by rewrite lookup_empty in Hcol.
Qed.

(** C8: when, among the results that survive the filter, a column key is
    present in one and absent in another, the merge fails: it raises a
    KeyError for a key that some surviving result lacks. Nothing is
    zero-filled and no key is left out of a returned table. *)
Theorem merge_results_divergent_keys (dicts : list (option table))
    (d1 d2 : table) (key : string) :
  d1 ∈ filter_None dicts → d2 ∈ filter_None dicts →
  key ∈ dom d1 → key ∉ dom d2 →
  ∃ k d, d ∈ filter_None dicts ∧ (k ∉ dom d) ∧
         merge_results dicts = Raise (KeyError k).
Proof.
  intros H1 H2 Hk1 Hk2. unfold merge_results.
  assert (key ∈ all_keys (filter_None dicts)) as Hkey
    by (apply elem_of_all_keys; eauto).
  destruct (fill_raises (merge_key (filter_None dicts))
              (elements (all_keys (filter_None dicts))) ∅ key (KeyError key))
    as (k' & e' & Hk' & He' & Hfill).
  - by apply elem_of_elements.
  - by eapply merge_key_missing.
  - apply elem_of_elements in Hk'.
    destruct (merge_key_Raise _ _ _ Hk' He') as (-> & d & Hd & Hkd).
    exists k', d. by rewrite Hfill.
Qed.

Lemma filter_nonempty_all (dicts : list table) :
  (∀ d, d ∈ dicts → d ≠ ∅) → filter (λ d : table, d ≠ ∅) dicts = dicts.
Proof.
  induction dicts as [|d dicts IH]; intros H; [done |].
  rewrite filter_cons_True by (apply H; left).
  f_equal. apply IH. intros d' Hd'. apply H. by right.
Qed.

Lemma filter_nonempty_none (dicts : list table) :
  (∀ d, d ∈ dicts → d = ∅) → filter (λ d : table, d ≠ ∅) dicts = [].
Proof.
  induction dicts as [|d dicts IH]; intros H; [done |].
  rewrite filter_cons_False by (intros Hne; apply Hne, H; left).
  apply IH. intros d' Hd'. apply H. by right.
Qed.

Lemma merge_uniform_tables (dicts : list (option table)) :
  uniform_keys (surviving dicts) →
  ∃ m, merge_results dicts = Ok m ∧ merged_as_specified dicts m.
Proof.
  intros Huni. unfold merge_results, merged_as_specified.
  rewrite filter_None_surviving.
  set (S := surviving dicts) in *.
  destruct (decide (all_keys S = ∅)) as [Hempty|Hkeys].
  - (* no key at all: every survivor is the empty dict and is dropped *)
    rewrite filter_nonempty_none.
    + exists ∅. unfold all_keys at 1. simpl. rewrite elements_empty. simpl.
      rewrite Hempty. split; [done | split; [apply dom_empty_L |]].
      intros key Hkey. by apply elem_of_empty in Hkey.
    + intros d Hd. apply dom_empty_inv_L. by rewrite (Huni d Hd).
  - (* some key: no survivor is empty and the filter keeps them all *)
    rewrite filter_nonempty_all.
    2:{ intros d Hd ->. apply Hkeys. rewrite <- (Huni _ Hd). apply dom_empty_L. }
    assert (S ≠ []) as Hne.
    { intros HS. apply Hkeys. by rewrite HS. }
    assert (∀ key d, key ∈ all_keys S → d ∈ S → key ∈ dom d) as Hall.
    { intros key d Hkey Hd. by rewrite (Huni d Hd). }
    destruct (fill_is_Ok (merge_key S) (elements (all_keys S)) ∅) as [m Hm].
    { intros key Hkey%elem_of_elements.
      destruct (merge_key_Ok S key Hne) as (c & Hc & _); eauto. }
    exists m. split; [done |].
    pose proof (fill_Ok_lookup _ _ _ _ Hm) as Hlook. split.
    + apply set_eq. intros key. rewrite elem_of_dom.
      destruct (Hlook key) as [Hin Hout]. split.
      * intros [c Hc]. destruct (decide (key ∈ all_keys S)) as [|Hn]; [done |].
        rewrite Hout, lookup_empty in Hc by (by rewrite elem_of_elements).
        discriminate.
      * intros Hkey. destruct Hin as (c & _ & Hc); [by apply elem_of_elements |].
        eauto.
    + intros key Hkey. destruct (Hlook key) as [Hin _].
      destruct Hin as (c & Hc & Hmc); [by apply elem_of_elements |].
      destruct (merge_key_Ok S key Hne) as (c' & Hc' & Hcat); [by eauto |].
      exists c. split; [congruence | done].
Qed.

(** C2, amended: when the surviving per-file results all carry the same key
    set, [merge_results] drops the sentinels and returns the table whose
    keys are the union of the survivors' keys and in which each key holds
    the concatenation, in input order, of that key's per-file arrays. *)
Theorem merge_results_uniform (dicts : list (option table)) :
  uniform_keys (surviving dicts) →
  ∃ m, merge_results dicts = Ok m ∧ merged_as_specified dicts m.
Proof. apply merge_uniform_tables. Qed.

(** ** The state-and-error monad *)

Lemma M_bind_lift {A B} (r : result A) (k : A → M B) (s : state) :
  (lift r ≫= k) s = match r with Ok a => k a s | Raise e => (Raise e, s) end.
Proof. by destruct r. Qed.

Lemma M_bind_log {B} (lv : level) (f : string) (a : list log_arg)
    (k : unit → M B) (s : state) :
  (logging_log lv f a ≫= k) s = k () (add_log s [LogRecord lv f a]).
Proof. done. Qed.

Lemma M_bind_Ok_inv {A B} (m : M A) (k : A → M B) (s s' : state) (b : B) :
  (m ≫= k) s = (Ok b, s') → ∃ a s1, m s = (Ok a, s1) ∧ k a s1 = (Ok b, s').
Proof.
  unfold mbind, M_bind. destruct (m s) as [[a|e] s1]; [eauto | discriminate].
Qed.

(** ** Array lengths *)

Lemma length_select_mask {A} (mask : list bool) (l : list A) :
  length l = length mask →
  length (select_mask mask l) = length (filter (λ b, b = true) mask).
Proof.
  revert l. induction mask as [|b mask IH]; intros [|x l]; simpl; try done.
  intros [= Hlen]. destruct b.
  - rewrite filter_cons_True by done. simpl. by rewrite IH.
  - rewrite filter_cons_False by done. by rewrite IH.
Qed.

Lemma select_mask_fmap {A B} (g : A → B) (mask : list bool) (l : list A) :
  select_mask mask (g <$> l) = g <$> select_mask mask l.
Proof.
  revert l. induction mask as [|b mask IH]; intros [|x l]; simpl; try done.
  destruct b; simpl; by rewrite IH.
Qed.

Lemma mask_index_Ok (a c : ndarray) (mask : list bool) :
  mask_index a mask = Ok c →
  length (items a) = length mask ∧ c = NDArray (dt a) (select_mask mask (items a)).
Proof.
  unfold mask_index. destruct (decide _); [|discriminate]. by intros [= <-].
Qed.

Lemma mask_index_len (a c : ndarray) (mask : list bool) :
  mask_index a mask = Ok c → len c = np_sum_bool mask.
Proof.
  intros [Hlen ->]%mask_index_Ok. unfold len, np_sum_bool. simpl.
  by rewrite length_select_mask.
Qed.

Lemma np_vectorize_Ok {B} (g : list Q → B) (a : ndarray) (l : list B) :
  np_vectorize g a = Ok l →
  items a ≠ [] ∧ ∃ rows, ragged a = Ok rows ∧ l = g <$> rows.
Proof.
  unfold np_vectorize. destruct (items a) as [|e es] eqn:Hi; [discriminate |].
  intros (rows & Hr & [= <-])%bind_Ok_inv. split; [done | eauto].
Qed.

Lemma ragged_length (a : ndarray) (rows : list (list Q)) :
  ragged a = Ok rows → length rows = length (items a).
Proof. apply for_list_length. Qed.

Lemma np_vectorize_length {B} (g : list Q → B) (a : ndarray) (l : list B) :
  np_vectorize g a = Ok l → length l = length (items a).
Proof.
  intros (_ & rows & Hr & ->)%np_vectorize_Ok.
  rewrite length_fmap. by apply ragged_length.
Qed.

Lemma np_vectorize3_length {A B C D} (g : A → B → C → D)
    (xs : list A) (ys : list B) (zs : list C) (l : list D) :
  np_vectorize3 g xs ys zs = Ok l → length l = length xs.
Proof.
  unfold np_vectorize3. destruct xs as [|x xs']; [discriminate |].
  destruct (decide _) as [[H1 H2]|]; [|discriminate]. intros [= <-].
  assert (length (zip_with (λ x yz, g x yz.1 yz.2) (x :: xs') (zip ys zs))
          = length (x :: xs')) as Hlen
    by (rewrite length_zip_with, length_zip; lia).
  exact Hlen.
Qed.

Lemma np_logical_or_length (a b l : list bool) :
  np_logical_or a b = Ok l → length l = length a.
Proof.
  unfold np_logical_or. destruct (decide _) as [H|]; [|discriminate].
  intros [= <-]. rewrite length_zip_with. lia.
Qed.

Lemma len_bool_array (l : list bool) : len (bool_array l) = Z.of_nat (length l).
Proof. unfold len, bool_array. simpl. by rewrite length_fmap. Qed.

Lemma len_float_array (l : list Q) : len (float_array l) = Z.of_nat (length l).
Proof. unfold len, float_array. simpl. by rewrite length_fmap. Qed.

Lemma unpack4_Ok {A} (l : list A) (a b c d : A) :
  unpack4 l = Ok (a, b, c, d) → l = [a; b; c; d].
Proof.
  destruct l as [|a' [|b' [|c' [|d' [|? ?]]]]]; simpl; try discriminate.
  by intros [= -> -> -> ->].
Qed.

Lemma filter_events_unpack4 (mask : list bool) (a b c d a' b' c' d' : ndarray) :
  filter_events mask [a; b; c; d] ≫= unpack4 = Ok (a', b', c', d') →
  mask_index a mask = Ok a' ∧ mask_index b mask = Ok b' ∧
  mask_index c mask = Ok c' ∧ mask_index d mask = Ok d'.
Proof.
  intros (l & Hl & ->%unpack4_Ok)%bind_Ok_inv.
  apply for_list_Ok in Hl.
  repeat match goal with
         | H : Forall2 _ (_ :: _) _ |- _ => inversion H; clear H; subst
         end.
  done.
Qed.

(** ** process_events *)

Lemma np_sum_bool_nonneg (mask : list bool) : 0 ≤ np_sum_bool mask.
Proof. unfold np_sum_bool. lia. Qed.

Lemma sr_quantities_zero (nb : Z) (pt eta m : ndarray) :
  ¬ 0 < nb →
  sr_quantities nb pt eta m
  = Ok (np_zeros0 DFloat, np_zeros0 DBool, np_zeros0 DBool, np_zeros0 DBool).
Proof. intros H. unfold sr_quantities. by rewrite decide_False. Qed.

Lemma sr_quantities_len (nb : Z) (pt eta m sum p4 p5 p : ndarray) :
  0 ≤ nb → len pt = nb → len m = nb →
  sr_quantities nb pt eta m = Ok (sum, p4, p5, p) →
  len sum = nb ∧ len p4 = nb ∧ len p5 = nb ∧ len p = nb.
Proof.
  intros Hnb Hpt Hm. unfold sr_quantities.
  destruct (decide (0 < nb)) as [Hpos|Hzero].
  - intros (numFatJet & Hn & H)%bind_Ok_inv.
    apply bind_Ok_inv in H as (sums & Hs & H).
    apply bind_Ok_inv in H as (detas & Hd & H).
    apply bind_Ok_inv in H as (l4 & H4 & H).
    apply bind_Ok_inv in H as (l5 & H5 & H).
    apply bind_Ok_inv in H as (l & Hl & [= <- <- <- <-]).
    apply np_vectorize_length in Hn, Hs.
    apply np_vectorize3_length in H4, H5.
    apply np_logical_or_length in Hl.
    rewrite len_float_array, !len_bool_array.
    unfold len in Hpt, Hm. lia.
  - intros [= <- <- <- <-]. unfold len. simpl. lia.
Qed.

Lemma fill_Ok_dom (f : string → result ndarray) (ks : list string) (acc m : table) :
  fill f ks acc = Ok m → dom m = dom acc ∪ list_to_set ks.
Proof.
  intros Hm. apply set_eq. intros k.
  destruct (fill_Ok_lookup _ _ _ _ Hm k) as [Hin Hout].
  rewrite elem_of_union, elem_of_list_to_set, !elem_of_dom.
  destruct (decide (k ∈ ks)) as [Hk|Hk].
  - destruct (Hin Hk) as (v & _ & ->). split; eauto.
  - rewrite (Hout Hk). split; [by left | by intros [?|?]].
Qed.

Lemma dom_skim_dict (pt eta phi m sum p4 p5 p : ndarray) :
  dom (<["fatJetPt":=pt]> (<["fatJetEta":=eta]> (<["fatJetPhi":=phi]>
        (<["fatJetM":=m]> (<["sumFatJetM":=sum]> (<["passSR4J":=p4]>
        (<["passSR5J":=p5]> (<["passSR":=p]> (∅ : table)))))))))
  = skim_keys.
Proof.
  rewrite !dom_insert_L, dom_empty_L. unfold skim_keys. simpl.
  by rewrite (right_id_L ∅ (∪)), !(assoc_L (∪)).
Qed.

Lemma elem_of_skim_keys (k : string) :
  k ∈ skim_keys ↔
  k = "fatJetPt" ∨ k = "fatJetEta" ∨ k = "fatJetPhi" ∨ k = "fatJetM" ∨
  k = "sumFatJetM" ∨ k = "passSR4J" ∨ k = "passSR5J" ∨ k = "passSR".
Proof.
  unfold skim_keys. rewrite elem_of_list_to_set, !elem_of_cons, elem_of_nil. prop_tauto.
Qed.

Lemma skim_events_inv (data : table) (s s' : state) (skimData : table) (nt nb : Z) :
  skim_events data s = (Ok (skimData, nt, nb), s') →
  ∃ skimIdx,
    baseline_mask data = Ok skimIdx ∧
    nt = Z.of_nat (length skimIdx) ∧ nb = np_sum_bool skimIdx ∧
    s' = add_log s [LogRecord INFO "Baseline selected events: %d / %d"
                      [ArgInt nb; ArgInt nt]] ∧
    (∀ k col, skimData !! k = Some col → len col = np_sum_bool skimIdx) ∧
    dom skimData = skim_keys ∪ dom data ∧
    (∀ k a, k ∉ skim_keys → data !! k = Some a →
            ∃ c, mask_index a skimIdx = Ok c ∧ skimData !! k = Some c) ∧
    (nb = 0 →
     skimData !! "sumFatJetM" = Some (np_zeros0 DFloat) ∧
     skimData !! "passSR4J" = Some (np_zeros0 DBool) ∧
     skimData !! "passSR5J" = Some (np_zeros0 DBool) ∧
     skimData !! "passSR" = Some (np_zeros0 DBool)).
Proof.
  intros H. unfold skim_events in H.
  rewrite M_bind_lift in H.
  destruct (select_objects data) as [[[[pt eta] phi] m]|e] eqn:Hsel; [|discriminate].
  rewrite M_bind_lift in H.
  destruct (np_vectorize is_baseline_event pt) as [skimIdx|e] eqn:Hmask; [|discriminate].
  rewrite M_bind_lift in H.
  destruct (filter_events skimIdx [pt; eta; phi; m] ≫= unpack4)
    as [[[[pt' eta'] phi'] m']|e] eqn:Hfe; [|discriminate].
  unfold logging_info in H. rewrite M_bind_log, M_bind_lift in H.
  destruct (sr_quantities (np_sum_bool skimIdx) pt' eta' m')
    as [[[[sum p4] p5] p]|e] eqn:Hsr; [|discriminate].
  rewrite M_bind_lift in H. rewrite dom_skim_dict in H.
  match type of H with
  | match fill ?f ?ks ?acc with _ => _ end = _ =>
      destruct (fill f ks acc) as [sd|e] eqn:Hfill; [|discriminate]
  end.
  injection H as <- <- <- <-.
  exists skimIdx. split; [|split; [done | split; [done | split; [done |]]]].
  { unfold baseline_mask. by rewrite Hsel. }
  apply filter_events_unpack4 in Hfe as (Hpt & Heta & Hphi & Hm).
  apply mask_index_len in Hpt, Heta, Hphi, Hm.
  destruct (sr_quantities_len _ _ _ _ _ _ _ _ (np_sum_bool_nonneg _) Hpt Hm Hsr)
    as (Hsum & H4 & H5 & Hp).
  pose proof (fill_Ok_lookup _ _ _ _ Hfill) as Hlook.
  assert (∀ k, k ∈ skim_keys → k ∉ elements (dom data ∖ skim_keys)) as Hskim.
  { intros k Hk [_ Hn]%elem_of_elements%elem_of_difference. done. }
  split; [|split; [|split]].
  - intros k col Hk. destruct (Hlook k) as [Hin Hout].
    destruct (decide (k ∈ elements (dom data ∖ skim_keys))) as [Hks|Hks].
    + destruct (Hin Hks) as (v & Hv & Hsdk).
      apply bind_Ok_inv in Hv as (a & _ & Hv).
      apply mask_index_len in Hv. congruence.
    + rewrite (Hout Hks) in Hk.
      repeat (apply lookup_insert_Some in Hk as [[_ <-]|[_ Hk]]; [done |]).
      by rewrite lookup_empty in Hk.
  - rewrite (fill_Ok_dom _ _ _ _ Hfill), list_to_set_elements_L, dom_skim_dict.
    apply set_eq. intros k. rewrite !elem_of_union, elem_of_difference.
    destruct (decide (k ∈ skim_keys)); prop_tauto.
  - intros k a Hk Ha. destruct (Hlook k) as [Hin _].
    destruct Hin as (v & Hv & Hsdk).
    { apply elem_of_elements, elem_of_difference. split; [|done].
      apply elem_of_dom. eauto. }
    unfold getitem in Hv. rewrite Ha, bind_Ok in Hv. eauto.
  - intros Hzero.
    rewrite sr_quantities_zero in Hsr by lia. injection Hsr as <- <- <- <-.
    assert (∀ k, k ∈ skim_keys → sd !! k = _ !! k) as Hsd
      by (intros k Hk; apply (proj2 (Hlook k)), Hskim, Hk).
    rewrite 4!Hsd by (rewrite elem_of_skim_keys; prop_tauto).
    done.
Qed.

(** ** The data of a tree *)

Lemma rename_columns_tree (tree : list event) :
  rename_columns tree branch_dict ∅ = Ok (tree_data tree).
Proof. reflexivity. Qed.

Lemma tree_data_length (tree : list event) (k : string) (a : ndarray) :
  tree_data tree !! k = Some a → length (items a) = length tree.
Proof.
  unfold tree_data. intros Hk.
  repeat (apply lookup_insert_Some in Hk as [[_ <-]|[_ Hk]];
          [by (unfold per_event, ragged_array, int_array; simpl;
               rewrite !length_fmap) |]).
  by rewrite lookup_empty in Hk.
Qed.

Lemma ragged_ragged_array (rows : list (list Q)) :
  ragged (ragged_array rows) = Ok rows.
Proof.
  unfold ragged, ragged_array. simpl.
  apply for_list_Ok. induction rows as [|r rows IH]; simpl; by constructor.
Qed.

Lemma mask_index_ragged_array (rows : list (list Q)) (mask : list bool) :
  length rows = length mask →
  mask_index (ragged_array rows) mask = Ok (ragged_array (select_mask mask rows)).
Proof.
  intros Hlen. unfold mask_index, ragged_array. simpl.
  rewrite decide_True by (by rewrite length_fmap).
  by rewrite select_mask_fmap.
Qed.

(** The index list of [select_fatjets] picks, in every co-indexed leaf, the
    entries of the jets that pass the cut. *)
Lemma take_indices_select_from (leaf : jet → Q) (pre jets : list jet) :
  take_indices (leaf <$> (pre ++ jets)%list)
    (select_from (length pre) (FatJet_PT <$> jets) (FatJet_Eta <$> jets))
  = Ok (leaf <$> filter (λ j, fatjet_cut (FatJet_PT j) (FatJet_Eta j) = true) jets).
Proof.
  revert pre. induction jets as [|j jets IH]; intros pre; [done |].
  assert ((pre ++ j :: jets = (pre ++ [j]) ++ jets)%list) as Happ by (by rewrite <- app_assoc).
  assert (S (length pre) = length (pre ++ [j])%list) as Hlen
    by (rewrite length_app; simpl; lia).
  cbn [fmap list_fmap select_from].
  destruct (fatjet_cut (FatJet_PT j) (FatJet_Eta j)) eqn:Hcut.
  - rewrite filter_cons_True by done.
    unfold take_indices. cbn [for_list].
    rewrite list_lookup_fmap, list_lookup_middle by done.
    cbn [fmap option_fmap option_map]. rewrite bind_Ok.
    pose proof (IH (pre ++ [j])%list) as IH'. rewrite <- Happ, <- Hlen in IH'.
    unfold take_indices in IH'. by rewrite IH'.
  - rewrite filter_cons_False by (by rewrite Hcut).
    rewrite Happ, Hlen. apply IH.
Qed.

Lemma take_indices_selected (leaf : jet → Q) (e : event) :
  take_indices (leaf <$> FatJets e)
    (select_fatjets (FatJet_PT <$> FatJets e) (FatJet_Eta <$> FatJets e))
  = Ok (leaf <$> selected e).
Proof. apply (take_indices_select_from leaf []). Qed.

Lemma per_event_indices_tree (leaf : jet → Q) (tree : list event) :
  per_event_indices ((λ e, leaf <$> FatJets e) <$> tree)
    (zip_with select_fatjets ((λ e, FatJet_PT <$> FatJets e) <$> tree)
                             ((λ e, FatJet_Eta <$> FatJets e) <$> tree))
  = Ok ((λ e, leaf <$> selected e) <$> tree).
Proof.
  induction tree as [|e tree IH]; [done |].
  cbn [fmap list_fmap zip_with per_event_indices].
  rewrite take_indices_selected, bind_Ok.
  change (per_event_indices (list_fmap _ _ ?g tree) (zip_with ?h (list_fmap _ _ ?g1 tree) (list_fmap _ _ ?g2 tree)))
    with (per_event_indices (g <$> tree) (zip_with h (g1 <$> tree) (g2 <$> tree))).
  by rewrite IH.
Qed.

Lemma select_objects_tree (tree : list event) :
  select_objects (tree_data tree)
  = Ok (per_event selected FatJet_PT tree, per_event selected FatJet_Eta tree,
        per_event selected FatJet_Phi tree, per_event selected FatJet_Mass tree).
Proof.
  unfold select_objects.
  assert (getitem (tree_data tree) "fatJetPt" = Ok (per_event FatJets FatJet_PT tree))
    as -> by reflexivity.
  assert (getitem (tree_data tree) "fatJetEta" = Ok (per_event FatJets FatJet_Eta tree))
    as -> by reflexivity.
  assert (getitem (tree_data tree) "fatJetPhi" = Ok (per_event FatJets FatJet_Phi tree))
    as -> by reflexivity.
  assert (getitem (tree_data tree) "fatJetM" = Ok (per_event FatJets FatJet_Mass tree))
    as -> by reflexivity.
  unfold per_event. rewrite !bind_Ok, !ragged_ragged_array, !bind_Ok.
  rewrite decide_True by (by rewrite !length_fmap).
  rewrite !bind_Ok. unfold filter_objects. cbn [for_list].
  rewrite !ragged_ragged_array, !bind_Ok, !per_event_indices_tree.
  reflexivity.
Qed.

Lemma np_vectorize_ragged_array {B} (g : list Q → B) (rows : list (list Q)) :
  rows ≠ [] → np_vectorize g (ragged_array rows) = Ok (g <$> rows).
Proof.
  intros Hne. unfold np_vectorize.
  destruct (items (ragged_array rows)) as [|x xs] eqn:Hi.
  - destruct rows; [done | discriminate].
  - by rewrite ragged_ragged_array.
Qed.

Lemma baseline_mask_tree (tree : list event) :
  tree ≠ [] → baseline_mask (tree_data tree) = Ok (passes_baseline <$> tree).
Proof.
  intros Hne. unfold baseline_mask. rewrite select_objects_tree, bind_Ok.
  unfold per_event. rewrite np_vectorize_ragged_array by (by destruct tree).
  by rewrite <- list_fmap_compose.
Qed.

(** A file without events stops [process_events] at the baseline mask. *)
Lemma baseline_mask_no_events :
  baseline_mask (tree_data [])
  = Raise (ValueError "cannot call `vectorize` on size 0 inputs unless `otypes` is set").
Proof. unfold baseline_mask. by rewrite select_objects_tree. Qed.

Lemma np_vectorize3_Ok {A B C D} (g : A → B → C → D)
    (xs : list A) (ys : list B) (zs : list C) :
  xs ≠ [] → length xs = length ys → length ys = length zs →
  np_vectorize3 g xs ys zs = Ok (zip_with (λ x yz, g x yz.1 yz.2) xs (zip ys zs)).
Proof.
  intros Hne H1 H2. unfold np_vectorize3. destruct xs as [|x xs]; [done |].
  by rewrite decide_True.
Qed.

Lemma np_logical_or_Ok (a b : list bool) :
  length a = length b → np_logical_or a b = Ok (zip_with orb a b).
Proof. intros H. unfold np_logical_or. by rewrite decide_True. Qed.

Lemma sr_quantities_ragged (nb : Z) (pts etas ms : list (list Q)) :
  length pts = length ms → length pts = length etas → (0 < nb → pts ≠ []) →
  ∃ q, sr_quantities nb (ragged_array pts) (ragged_array etas) (ragged_array ms) = Ok q.
Proof.
  intros Hm Heta Hne. unfold sr_quantities.
  destruct (decide (0 < nb)) as [Hpos|]; [|eauto].
  specialize (Hne Hpos).
  assert (etas ≠ []) as Hetas by (intros ->; by destruct pts).
  assert (ms ≠ []) as Hms by (intros ->; by destruct pts).
  rewrite !np_vectorize_ragged_array by done. rewrite !bind_Ok.
  rewrite !np_vectorize3_Ok
    by first [ by destruct pts | rewrite !length_fmap; congruence ].
  rewrite !bind_Ok.
  rewrite np_logical_or_Ok by (by rewrite !length_zip_with).
  rewrite bind_Ok. eauto.
Qed.

Lemma skim_events_tree (tree : list event) (s : state) :
  tree ≠ [] →
  ∃ skimData,
    skim_events (tree_data tree) s
    = (Ok (skimData, Z.of_nat (length tree), np_sum_bool (passes_baseline <$> tree)),
       add_log s [LogRecord INFO "Baseline selected events: %d / %d"
                    [ArgInt (np_sum_bool (passes_baseline <$> tree));
                     ArgInt (Z.of_nat (length tree))]]).
Proof.
  intros Hne. unfold skim_events.
  rewrite M_bind_lift, select_objects_tree. cbn beta iota.
  unfold per_event.
  rewrite M_bind_lift, np_vectorize_ragged_array by (by destruct tree).
  cbn beta iota. rewrite <- list_fmap_compose.
  change (is_baseline_event ∘ (λ e, FatJet_PT <$> selected e)) with passes_baseline.
  set (mask := passes_baseline <$> tree).
  assert (length mask = length tree) as Hmask by apply length_fmap.
  rewrite M_bind_lift. unfold filter_events. cbn [for_list].
  rewrite !mask_index_ragged_array by (by rewrite length_fmap).
  rewrite !bind_Ok. cbn [unpack4]. cbn beta iota.
  unfold logging_info. rewrite M_bind_log, M_bind_lift.
  destruct (sr_quantities_ragged (np_sum_bool mask)
              (select_mask mask ((λ e, FatJet_PT <$> selected e) <$> tree))
              (select_mask mask ((λ e, FatJet_Eta <$> selected e) <$> tree))
              (select_mask mask ((λ e, FatJet_Mass <$> selected e) <$> tree)))
    as [[[[sum p4] p5] p] ->].
  { by rewrite !length_select_mask by (by rewrite length_fmap). }
  { by rewrite !length_select_mask by (by rewrite length_fmap). }
  { intros Hpos Hnil. unfold np_sum_bool in Hpos.
    rewrite <- (length_select_mask mask ((λ e, FatJet_PT <$> selected e) <$> tree)), Hnil
      in Hpos by (by rewrite length_fmap).
    simpl in Hpos. lia. }
  cbn beta iota. rewrite M_bind_lift.
  match goal with
  | |- ∃ _, match fill ?f ?ks ?acc with _ => _ end = _ =>
      destruct (fill_is_Ok f ks acc) as [sd ->]
  end.
  { intros k Hk%elem_of_elements.
    apply elem_of_difference in Hk as [[a Ha]%elem_of_dom _].
    unfold getitem. rewrite Ha, bind_Ok. unfold mask_index.
    rewrite decide_True by (by rewrite (tree_data_length _ _ _ Ha)). eauto. }
  rewrite Hmask. eauto.
Qed.

(** ** What the steps of the pipeline do to the state *)

Lemma add_log_add_log (s : state) (a b : list log_record) :
  add_log (add_log s a) b = add_log s (a ++ b)%list.
Proof. unfold add_log. simpl. by rewrite <- app_assoc. Qed.

Lemma steps_to_refl (s : state) : steps_to s s.
Proof. by split. Qed.

Lemma steps_to_trans (s1 s2 s3 : state) :
  steps_to s1 s2 → steps_to s2 s3 → steps_to s1 s3.
Proof. intros [H1 H2] [H3 H4]. split; congruence. Qed.

Lemma steps_to_add_log (s : state) (records : list log_record) :
  steps_to s (add_log s records).
Proof. by split. Qed.

Lemma preserves_ret {A} (a : A) : preserves (mret a).
Proof. intros s r s' [= <- <-]. apply steps_to_refl. Qed.

Lemma preserves_lift {A} (r : result A) : preserves (lift r).
Proof. intros s r' s' [= <- <-]. apply steps_to_refl. Qed.

Lemma preserves_log (lv : level) (f : string) (a : list log_arg) :
  preserves (logging_log lv f a).
Proof. intros s r s' [= <- <-]. apply steps_to_add_log. Qed.

Lemma preserves_bind {A B} (m : M A) (k : A → M B) :
  preserves m → (∀ a, preserves (k a)) → preserves (m ≫= k).
Proof.
  intros Hm Hk s r s'. unfold mbind, M_bind.
  destruct (m s) as [[a|e] s1] eqn:Hms.
  - intros Hka. eapply steps_to_trans; [by eapply Hm | by eapply Hk].
  - intros [= <- <-]. by eapply Hm.
Qed.

Ltac preserves_step :=
  match goal with
  | |- preserves (_ ≫= _) => apply preserves_bind
  | |- preserves (lift _) => apply preserves_lift
  | |- preserves (logging_log _ _ _) => apply preserves_log
  | |- preserves (logging_info _ _) => apply preserves_log
  | |- preserves (logging_warn _ _) => apply preserves_log
  | |- preserves (mret _) => apply preserves_ret
  | |- ∀ _, preserves _ => intro
  | |- preserves (match ?a with _ => _ end) => destruct a
  end.

Lemma preserves_get_xsec (filename : string) : preserves (get_xsec filename).
Proof.
  intros s r s'. unfold get_xsec, XsecMap_get_xsec, steps_to, xsec_table.
  destruct (xsecMap s) as [m|] eqn:Hc.
  - destruct (m !! sample_of filename); intros [= <- <-]; by rewrite Hc.
  - destruct load_xsec_map as [m|e].
    + destruct (m !! sample_of filename); by intros [= <- <-].
    + intros [= <- <-]. by rewrite Hc.
Qed.

Lemma preserves_skim_events (data : table) : preserves (skim_events data).
Proof. unfold skim_events. repeat preserves_step. Qed.

Lemma preserves_process_events (data : table) : preserves (process_events data).
Proof.
  unfold process_events. apply preserves_bind; [apply preserves_skim_events |].
  repeat preserves_step.
Qed.

Lemma preserves_get_data (files : string) (branches : list (string * string))
    (treename : string) (stop : option Z) :
  preserves (get_data files branches treename stop).
Proof. unfold get_data. repeat preserves_step. Qed.

Lemma preserves_filter_delphes_to_numpy (root_file : string) (max_events : option Z) :
  preserves (filter_delphes_to_numpy root_file max_events).
Proof.
  unfold filter_delphes_to_numpy.
  repeat first [ apply preserves_get_data | apply preserves_process_events
               | apply preserves_get_xsec | preserves_step ].
Qed.

Lemma preserves_for_list_M {A B} (f : A → M B) (l : list A) :
  (∀ x, preserves (f x)) → preserves (for_list_M f l).
Proof.
  intros Hf. induction l as [|x l IH]; simpl.
  - apply preserves_ret.
  - repeat first [ apply Hf | apply IH | preserves_step ].
Qed.

Lemma preserves_process_files_parallel (input_files : list string) (nw : Z)
    (max_events : option Z) :
  preserves (process_files_parallel input_files nw max_events).
Proof.
  unfold process_files_parallel.
  repeat first [ apply preserves_for_list_M; intro
               | apply preserves_filter_delphes_to_numpy | preserves_step ].
Qed.

(** ** The Per-File Processor, case by case *)

Lemma get_data_IOError (files treename : string) (branches : list (string * string))
    (stop : option Z) (msg : string) (s : state) :
  root2array files treename (branches.*1) stop = Raise (IOError msg) →
  get_data files branches treename stop s
  = (Ok None, add_log s [LogRecord WARNING "WARNING: root2array gave an IOError: %s"
                           [ArgStr msg]]).
Proof. intros H. unfold get_data. by rewrite H. Qed.

Lemma get_data_tree (root_file : string) (stop : option Z) (tree : list event)
    (s : state) :
  root2array root_file "Delphes" (branch_dict.*1) stop = Ok tree →
  get_data root_file branch_dict "Delphes" stop s = (Ok (Some (tree_data tree)), s).
Proof.
  intros H. unfold get_data. rewrite H, M_bind_lift, rename_columns_tree. done.
Qed.

Lemma get_data_Raise (files treename : string) (branches : list (string * string))
    (stop : option Z) (e : exn) (s : state) :
  root2array files treename (branches.*1) stop = Raise e →
  (∀ msg, e ≠ IOError msg) →
  get_data files branches treename stop s = (Raise e, s).
Proof.
  intros H Hio. unfold get_data. rewrite H.
  destruct e; try done. by destruct (Hio msg).
Qed.

Lemma process_events_eq (data : table) (s : state) :
  process_events data s =
  match skim_events data s with
  | (Ok (skimData, num_total, num_baseline), s') =>
      (Ok (<["skimEvents" := int_array [num_baseline]]>
             (<["totalEvents" := int_array [num_total]]> skimData)), s')
  | (Raise e, s') => (Raise e, s')
  end.
Proof.
  unfold process_events, mbind, M_bind.
  by destruct (skim_events data s) as [[[[sd nt] nb]|e] s'].
Qed.

Lemma filter_delphes_to_numpy_IOError (root_file : string) (max_events : option Z)
    (msg : string) (s : state) :
  root2array root_file "Delphes" (branch_dict.*1) max_events = Raise (IOError msg) →
  filter_delphes_to_numpy root_file max_events s
  = (Ok None,
     add_log s [LogRecord INFO "Now processing: %s" [ArgStr root_file];
                LogRecord WARNING "WARNING: root2array gave an IOError: %s"
                  [ArgStr msg]]).
Proof.
  intros H. unfold filter_delphes_to_numpy, logging_info.
  rewrite M_bind_log. unfold mbind, M_bind.
  rewrite (get_data_IOError _ _ _ _ _ _ H). by rewrite add_log_add_log.
Qed.

Lemma filter_delphes_to_numpy_Raise (root_file : string) (max_events : option Z)
    (e : exn) (s : state) :
  root2array root_file "Delphes" (branch_dict.*1) max_events = Raise e →
  (∀ msg, e ≠ IOError msg) →
  filter_delphes_to_numpy root_file max_events s
  = (Raise e, add_log s [LogRecord INFO "Now processing: %s" [ArgStr root_file]]).
Proof.
  intros H Hio. unfold filter_delphes_to_numpy, logging_info.
  rewrite M_bind_log. unfold mbind, M_bind.
  by rewrite (get_data_Raise _ _ _ _ _ _ H Hio).
Qed.

Lemma filter_delphes_to_numpy_tree (root_file : string) (max_events : option Z)
    (tree : list event) (s : state) :
  root2array root_file "Delphes" (branch_dict.*1) max_events = Ok tree →
  filter_delphes_to_numpy root_file max_events s =
  match process_events (tree_data tree)
          (add_log s [LogRecord INFO "Now processing: %s" [ArgStr root_file];
                      LogRecord INFO "Applying event selection" []]) with
  | (Ok skimData, s1) =>
      match get_xsec root_file s1 with
      | (Ok xsec, s2) =>
          (Ok (Some (<["xsec" := float_array [xsec]]>
                       (<["inputFile" := object_array [EStr (basename root_file)]]>
                          skimData))), s2)
      | (Raise e, s2) => (Raise e, s2)
      end
  | (Raise e, s1) => (Raise e, s1)
  end.
Proof.
  intros H. unfold filter_delphes_to_numpy, logging_info.
  rewrite M_bind_log. unfold mbind at 1, M_bind at 1.
  rewrite (get_data_tree _ _ _ _ H), M_bind_log, add_log_add_log.
  unfold mbind, M_bind. simpl app.
  destruct (process_events _ _) as [[skim|e] s1]; [|done].
  by destruct (get_xsec root_file s1) as [[x|e] s2].
Qed.

Lemma get_xsec_unknown (filename : string) (xs : gmap string Q) (s : state) :
  xsec_table s = Ok xs → xs !! sample_of filename = None →
  (get_xsec filename s).1 = Raise (KeyError (sample_of filename)).
Proof.
  unfold xsec_table, get_xsec, XsecMap_get_xsec. intros Ht Hx.
  destruct (xsecMap s) as [m|].
  - injection Ht as ->. by rewrite Hx.
  - rewrite Ht. by rewrite Hx.
Qed.

Lemma get_xsec_known (filename : string) (xs : gmap string Q) (x : Q) (s : state) :
  xsec_table s = Ok xs → xs !! sample_of filename = Some x →
  (get_xsec filename s).1 = Ok x.
Proof.
  unfold xsec_table, get_xsec, XsecMap_get_xsec. intros Ht Hx.
  destruct (xsecMap s) as [m|].
  - injection Ht as ->. by rewrite Hx.
  - rewrite Ht. by rewrite Hx.
Qed.

Lemma process_events_tree (tree : list event) (s : state) :
  tree ≠ [] →
  ∃ skimData s', process_events (tree_data tree) s = (Ok skimData, s').
Proof.
  intros Hne. rewrite process_events_eq.
  destruct (skim_events_tree tree s Hne) as [sd ->]. eauto.
Qed.

(** A file that is read and has events, but whose sample is not in the
    reference table: the KeyError of the lookup leaves the processor. *)
Lemma filter_delphes_to_numpy_unknown_sample (root_file : string)
    (max_events : option Z) (tree : list event) (xs : gmap string Q) (s : state) :
  root2array root_file "Delphes" (branch_dict.*1) max_events = Ok tree →
  tree ≠ [] → xsec_table s = Ok xs → xs !! sample_of root_file = None →
  (filter_delphes_to_numpy root_file max_events s).1
  = Raise (KeyError (sample_of root_file)).
Proof.
  intros Hread Hne Ht Hx. rewrite (filter_delphes_to_numpy_tree _ _ _ _ Hread).
  destruct (process_events_tree tree (add_log s
              [LogRecord INFO "Now processing: %s" [ArgStr root_file];
               LogRecord INFO "Applying event selection" []]) Hne)
    as (skim & s1 & Hpe).
  rewrite Hpe.
  assert (xsec_table s1 = Ok xs) as Ht1.
  { apply preserves_process_events in Hpe as [_ ->]. done. }
  pose proof (get_xsec_unknown root_file xs s1 Ht1 Hx) as Hget.
  destruct (get_xsec root_file s1) as [[x|e] s2]; simpl in *; congruence.
Qed.

(** A file that is read, has events and a sample in the reference table
    gives a populated dictionary. *)
Lemma filter_delphes_to_numpy_known_sample (root_file : string)
    (max_events : option Z) (tree : list event) (xs : gmap string Q) (x : Q)
    (s : state) :
  root2array root_file "Delphes" (branch_dict.*1) max_events = Ok tree →
  tree ≠ [] → xsec_table s = Ok xs → xs !! sample_of root_file = Some x →
  ∃ skimData,
    (filter_delphes_to_numpy root_file max_events s).1
    = Ok (Some (<["xsec" := float_array [x]]>
                  (<["inputFile" := object_array [EStr (basename root_file)]]>
                     skimData))).
Proof.
  intros Hread Hne Ht Hx. rewrite (filter_delphes_to_numpy_tree _ _ _ _ Hread).
  destruct (process_events_tree tree (add_log s
              [LogRecord INFO "Now processing: %s" [ArgStr root_file];
               LogRecord INFO "Applying event selection" []]) Hne)
    as (skim & s1 & Hpe).
  rewrite Hpe.
  assert (xsec_table s1 = Ok xs) as Ht1.
  { apply preserves_process_events in Hpe as [_ ->]. done. }
  pose proof (get_xsec_known root_file xs x s1 Ht1 Hx) as Hget.
  destruct (get_xsec root_file s1) as [[x'|e] s2]; simpl in *; [|discriminate].
  injection Hget as ->. eauto.
Qed.

(** One task that raises makes the collection of the results raise. *)
Lemma for_list_M_raises {A B} (P : A → M B) (I : state → Prop) (l : list A) (x : A) :
  (∀ y s r s', P y s = (r, s') → I s → I s') →
  x ∈ l → (∀ s, I s → raises (P x s).1) →
  ∀ s, I s → raises (for_list_M P l s).1.
Proof.
  intros HI Hx Hraise. induction l as [|y l IH]; intros s Hs.
  - by apply elem_of_nil in Hx.
  - simpl. unfold mbind at 1, M_bind at 1.
    destruct (P y s) as [[b|e] s1] eqn:Hy; [|by exists e].
    apply elem_of_cons in Hx as [->|Hx].
    + destruct (Hraise s Hs) as [e He]. rewrite Hy in He. discriminate.
    + destruct (IH Hx s1) as [e He]; [by eapply HI |].
      exists e. unfold mbind, M_bind.
      destruct (for_list_M P l s1) as [[bs|e'] s2]; simpl in *; congruence.
Qed.

Lemma process_files_parallel_raises (input_files : list string) (nw : Z)
    (max_events : option Z) (root_file : string) (I : state → Prop) :
  (∀ s s', steps_to s s' → I s → I s') →
  root_file ∈ input_files →
  (∀ s, I s → raises (filter_delphes_to_numpy root_file max_events s).1) →
  ∀ s, I s → raises (process_files_parallel input_files nw max_events s).1.
Proof.
  intros HI Hin Hraise s Hs. unfold process_files_parallel, logging_info.
  rewrite M_bind_log, M_bind_lift.
  destruct (decide (nw < 1)); [by eexists |].
  unfold mbind at 1, M_bind at 1.
  destruct (for_list_M_raises (λ f, filter_delphes_to_numpy f max_events) I
              input_files root_file) with
    (s := add_log s [LogRecord INFO "Starting process pool of %d workers" [ArgInt nw]])
    as [e He]; try done.
  - intros y s0 r s' Hy. apply (HI s0 s').
    by apply preserves_filter_delphes_to_numpy in Hy.
  - apply (HI s _ (steps_to_add_log _ _) Hs).
  - exists e.
    destruct (for_list_M _ input_files _) as [[bs|e'] s2]; simpl in *; congruence.
Qed.

(** C4, amended: for every input file that the reader reads with at least
    one event and whose sample identifier is absent from the cross-section
    reference table, the lookup fails with a KeyError for that sample; the
    error leaves the Per-File Processor and the dispatcher's result
    collection, so every batch that contains the file is aborted and no
    cross section is defaulted. *)
Theorem unknown_sample_aborts_batch (root_file : string) (max_events : option Z)
    (tree : list event) (xs : gmap string Q) (s : state) :
  root2array root_file "Delphes" (branch_dict.*1) max_events = Ok tree →
  tree ≠ [] →
  xsec_table s = Ok xs → xs !! sample_of root_file = None →
  unknown_sample_aborts root_file max_events s.
Proof.
  intros Hread Hne Ht Hx. split.
  - by eapply filter_delphes_to_numpy_unknown_sample.
  - intros input_files nw Hin.
    apply (process_files_parallel_raises input_files nw max_events root_file
             (λ s, xsec_table s = Ok xs)); try done.
    + intros s0 s' [_ Hs'] Hs0. congruence.
    + intros s0 Hs0. eexists.
      by eapply filter_delphes_to_numpy_unknown_sample.
Qed.

(** C1, amended: for every input path the Per-File Processor returns a
    populated per-file result dictionary, returns the failure sentinel
    [None], or raises an exception that is not the reader's I/O error (the
    KeyError of an unknown sample, for one). When the external reader raises
    an I/O error, the error is caught and logged and [None] is returned, and
    the collection of the results goes on with the next file: a read failure
    on one file does not abort the batch. *)
Theorem filter_delphes_to_numpy_outcomes (root_file : string)
    (max_events : option Z) (s : state) :
  (∀ msg,
     root2array root_file "Delphes" (branch_dict.*1) max_events = Raise (IOError msg) →
     let s1 := add_log s [LogRecord INFO "Now processing: %s" [ArgStr root_file];
                          LogRecord WARNING "WARNING: root2array gave an IOError: %s"
                            [ArgStr msg]] in
     filter_delphes_to_numpy root_file max_events s = (Ok None, s1) ∧
     ∀ rest,
       for_list_M (λ f, filter_delphes_to_numpy f max_events) (root_file :: rest) s
       = ((cons None <$> (for_list_M (λ f, filter_delphes_to_numpy f max_events) rest s1).1),
          (for_list_M (λ f, filter_delphes_to_numpy f max_events) rest s1).2)) ∧
  (dict_or_None (filter_delphes_to_numpy root_file max_events s).1 ∨
   ∃ e, (filter_delphes_to_numpy root_file max_events s).1 = Raise e ∧
        ∀ msg, root2array root_file "Delphes" (branch_dict.*1) max_events
               ≠ Raise (IOError msg)).
Proof.
  split.
  - intros msg Hio s1.
    pose proof (filter_delphes_to_numpy_IOError _ _ _ s Hio) as Hfd.
    split; [done |]. intros rest. simpl. unfold mbind at 1, M_bind at 1.
    rewrite Hfd. fold s1. unfold mbind, M_bind.
    by destruct (for_list_M _ rest s1) as [[ds|e] s2].
  - destruct (root2array root_file "Delphes" (branch_dict.*1) max_events)
      as [tree|e] eqn:Hread.
    + rewrite (filter_delphes_to_numpy_tree _ _ _ _ Hread).
      destruct (process_events _ _) as [[skim|e] s1]; [|right; by eexists].
      destruct (get_xsec root_file s1) as [[x|e] s2]; [|right; by eexists].
      left. right. eexists. split; [done |]. apply insert_non_empty.
    + assert ((∃ msg, e = IOError msg) ∨ ∀ msg, e ≠ IOError msg) as [[msg ->]|Hno]
        by (destruct e; eauto).
      * left. left. by rewrite (filter_delphes_to_numpy_IOError _ _ _ _ Hread).
      * right. exists e. split; [|congruence].
        by rewrite (filter_delphes_to_numpy_Raise _ _ _ _ Hread).
Qed.

(** ** process_events on the data of a file *)

Lemma process_events_inv (data skim : table) (s s' : state) :
  process_events data s = (Ok skim, s') →
  ∃ skimData nt nb,
    skim_events data s = (Ok (skimData, nt, nb), s') ∧
    skim = <["skimEvents" := int_array [nb]]>
             (<["totalEvents" := int_array [nt]]> skimData).
Proof.
  rewrite process_events_eq.
  destruct (skim_events data s) as [[[[sd nt] nb]|e] s1]; [|discriminate].
  intros [= <- <-]. eauto 6.
Qed.

Lemma length_selected (e : event) :
  length (selected e)
  = length (select_fatjets (FatJet_PT <$> FatJets e) (FatJet_Eta <$> FatJets e)).
Proof.
  pose proof (take_indices_selected FatJet_PT e) as H.
  apply for_list_length in H. by rewrite length_fmap in H.
Qed.

Lemma passes_baseline_true (e : event) :
  select_fatjets (FatJet_PT <$> FatJets e) (FatJet_Eta <$> FatJets e) ≠ [] →
  passes_baseline e = true.
Proof.
  intros H. unfold passes_baseline, is_baseline_event.
  apply bool_decide_eq_true. rewrite length_fmap, length_selected.
  destruct (select_fatjets _ _); [done | simpl; lia].
Qed.

Lemma passes_baseline_false (e : event) :
  select_fatjets (FatJet_PT <$> FatJets e) (FatJet_Eta <$> FatJets e) = [] →
  passes_baseline e = false.
Proof.
  intros H. unfold passes_baseline, is_baseline_event.
  apply bool_decide_eq_false. rewrite length_fmap, length_selected, H. simpl. lia.
Qed.

(** The guard of the signal-region block does its work on every file with
    events: when none of them passes the baseline selection the derived
    columns are the empty arrays of the [else] branch. *)
Lemma process_events_no_survivors (tree : list event) (s : state) :
  tree ≠ [] → np_sum_bool (passes_baseline <$> tree) = 0 →
  ∃ skim s',
    process_events (tree_data tree) s = (Ok skim, s') ∧
    skim !! "skimEvents" = Some (int_array [0]) ∧
    skim !! "sumFatJetM" = Some (np_zeros0 DFloat) ∧
    skim !! "passSR4J" = Some (np_zeros0 DBool) ∧
    skim !! "passSR5J" = Some (np_zeros0 DBool) ∧
    skim !! "passSR" = Some (np_zeros0 DBool).
Proof.
  intros Hne Hzero. rewrite process_events_eq.
  destruct (skim_events_tree tree s Hne) as [sd Hsd]. rewrite Hsd.
  apply skim_events_inv in Hsd as (mask & _ & _ & _ & _ & _ & _ & _ & Hz).
  destruct (Hz Hzero) as (H1 & H2 & H3 & H4).
  eexists _, _. split; [done |]. rewrite Hzero.
  rewrite lookup_insert_eq, !lookup_insert_ne by done. done.
Qed.

(** C3: whenever [process_events] gets through its event-filtering step,
    every column of the table this step leaves has as many rows as there are
    events that pass the applied mask [skimIdx]; the table that
    [process_events] returns is this table with the two bookkeeping entries
    added. *)
Theorem process_events_columns_aligned (data skim : table) (s s' : state) :
  process_events data s = (Ok skim, s') →
  ∃ skimIdx skimData,
    baseline_mask data = Ok skimIdx ∧
    skim = <["skimEvents" := int_array [np_sum_bool skimIdx]]>
             (<["totalEvents" := int_array [Z.of_nat (length skimIdx)]]> skimData) ∧
    ∀ k col, skimData !! k = Some col → len col = np_sum_bool skimIdx.
Proof.
  intros (sd & nt & nb & Hsd & ->)%process_events_inv.
  apply skim_events_inv in Hsd as (mask & Hmask & -> & -> & _ & Hlen & _).
  exists mask, sd. done.
Qed.

(** C6, at the input that breaks it: a file without events. The baseline
    mask is computed by [np.vectorize] without [otypes], which raises on an
    input of size 0, so [process_events] raises before it reaches the guard
    that would have produced the empty region-flag columns. *)
Theorem process_events_no_events (data : table) (s : state) :
  rename_columns [] branch_dict ∅ = Ok data →
  (process_events data s).1
  = Raise (ValueError "cannot call `vectorize` on size 0 inputs unless `otypes` is set").
Proof.
  rewrite rename_columns_tree. intros [= <-].
  rewrite process_events_eq. unfold skim_events.
  by rewrite M_bind_lift, select_objects_tree.
Qed.

(** C7: a file with three events in which the object selector keeps at least
    one jet in the first and in the third event and none in the second. The
    baseline mask is [True, False, True], the event columns of the output
    have two rows (those of the first and the third event), [skimEvents] is
    2 and [totalEvents] is 3. *)
Theorem three_events_scenario (e1 e2 e3 : event) (data : table) (s : state) :
  rename_columns [e1; e2; e3] branch_dict ∅ = Ok data →
  select_fatjets (FatJet_PT <$> FatJets e1) (FatJet_Eta <$> FatJets e1) ≠ [] →
  select_fatjets (FatJet_PT <$> FatJets e2) (FatJet_Eta <$> FatJets e2) = [] →
  select_fatjets (FatJet_PT <$> FatJets e3) (FatJet_Eta <$> FatJets e3) ≠ [] →
  baseline_mask data = Ok [true; false; true] ∧
  ∃ skim s',
    process_events data s = (Ok skim, s') ∧
    skim !! "skimEvents" = Some (int_array [2]) ∧
    skim !! "totalEvents" = Some (int_array [3]) ∧
    skim !! "eventNumber" = Some (int_array [Event_Number e1; Event_Number e3]) ∧
    ∀ k col, k ≠ "skimEvents" → k ≠ "totalEvents" → skim !! k = Some col → len col = 2.
Proof.
  rewrite rename_columns_tree. intros [= <-] H1 H2 H3.
  assert (baseline_mask (tree_data [e1; e2; e3]) = Ok [true; false; true]) as Hmask.
  { rewrite baseline_mask_tree by done. simpl.
    by rewrite (passes_baseline_true _ H1), (passes_baseline_false _ H2),
               (passes_baseline_true _ H3). }
  split; [done |].
  destruct (process_events_tree [e1; e2; e3] s) as (skim & s' & Hpe); [done |].
  exists skim, s'. split; [done |].
  apply process_events_inv in Hpe as (sd & nt & nb & Hsd & ->).
  apply skim_events_inv in Hsd as (mask & Hmask' & -> & -> & _ & Hlen & _ & Hrest & _).
  rewrite Hmask in Hmask'. injection Hmask' as <-.
  split; [by rewrite lookup_insert_eq |].
  split; [by rewrite lookup_insert_ne, lookup_insert_eq |].
  split.
  - rewrite !lookup_insert_ne by done.
    destruct (Hrest "eventNumber" (int_array (Event_Number <$> [e1; e2; e3])))
      as (c & Hc & ->);
      [rewrite elem_of_skim_keys; intros [?|[?|[?|[?|[?|[?|[?|?]]]]]]]; discriminate
      | done |].
    by injection Hc as <-.
  - intros k col Hk1 Hk2. rewrite !lookup_insert_ne by done. apply Hlen.
Qed.

(** ** The results of a batch *)

Lemma dom_tree_data (tree : list event) : dom (tree_data tree) = dom (tree_data []).
Proof. unfold tree_data. by rewrite !dom_insert_L. Qed.

Lemma filter_delphes_to_numpy_Some_inv (root_file : string) (max_events : option Z)
    (d : table) (s s' : state) :
  filter_delphes_to_numpy root_file max_events s = (Ok (Some d), s') →
  ∃ nt,
    d !! "totalEvents" = Some (int_array [nt]) ∧
    d !! "skimEvents" = Some (int_array [survivors root_file max_events]) ∧
    dom d = per_file_keys.
Proof.
  destruct (root2array root_file "Delphes" (branch_dict.*1) max_events)
    as [tree|e] eqn:Hread.
  - rewrite (filter_delphes_to_numpy_tree _ _ _ _ Hread).
    destruct (process_events _ _) as [[skim|e] s1] eqn:Hpe; [|discriminate].
    destruct (get_xsec root_file s1) as [[x|e] s2]; [|discriminate].
    intros [= <- <-].
    apply process_events_inv in Hpe as (sd & nt & nb & Hsd & ->).
    apply skim_events_inv in Hsd as (mask & Hmask & -> & -> & _ & _ & Hdom & _).
    exists (Z.of_nat (length mask)).
    split; [rewrite !lookup_insert_ne by done; by rewrite lookup_insert_eq |].
    split.
    + rewrite !lookup_insert_ne by done. rewrite lookup_insert_eq.
      unfold survivors. by rewrite Hread, Hmask.
    + rewrite !dom_insert_L, Hdom, dom_tree_data. done.
  - assert ((∃ msg, e = IOError msg) ∨ ∀ msg, e ≠ IOError msg) as [[msg ->]|Hno]
      by (destruct e; eauto).
    + by rewrite (filter_delphes_to_numpy_IOError _ _ _ _ Hread).
    + by rewrite (filter_delphes_to_numpy_Raise _ _ _ _ Hread).
Qed.

Lemma filter_delphes_to_numpy_None_inv (root_file : string) (max_events : option Z)
    (s s' : state) :
  filter_delphes_to_numpy root_file max_events s = (Ok None, s') →
  ∃ msg, root2array root_file "Delphes" (branch_dict.*1) max_events = Raise (IOError msg).
Proof.
  destruct (root2array root_file "Delphes" (branch_dict.*1) max_events)
    as [tree|e] eqn:Hread.
  - rewrite (filter_delphes_to_numpy_tree _ _ _ _ Hread).
    destruct (process_events _ _) as [[skim|e] s1]; [|discriminate].
    by destruct (get_xsec root_file s1) as [[x|e] s2].
  - assert ((∃ msg, e = IOError msg) ∨ ∀ msg, e ≠ IOError msg) as [[msg ->]|Hno]
      by (destruct e; eauto).
    + eauto.
    + by rewrite (filter_delphes_to_numpy_Raise _ _ _ _ Hread).
Qed.

Lemma for_list_M_Ok_inv {A B} (P : A → M B) (l : list A) (bs : list B) (s s' : state) :
  for_list_M P l s = (Ok bs, s') →
  Forall2 (λ x b, ∃ s1 s2, P x s1 = (Ok b, s2)) l bs.
Proof.
  revert bs s. induction l as [|x l IH]; intros bs s; simpl.
  - intros [= <- <-]. constructor.
  - intros (b & s1 & Hx & H)%M_bind_Ok_inv.
    apply M_bind_Ok_inv in H as (bs' & s2 & Hl & [= <- <-]).
    constructor; [eauto | by eapply IH].
Qed.

Lemma arrays_of_cons (key : string) (d : table) (a : ndarray) (dicts : list table) :
  d !! key = Some a → arrays_of key (d :: dicts) = a :: arrays_of key dicts.
Proof. intros H. unfold arrays_of. cbn [omap list_omap]. by rewrite H. Qed.

(** The bookkeeping arrays of the surviving results of a batch. *)
Lemma bookkeeping_arrays (input_files : list string) (max_events : option Z)
    (task_data : list (option table)) :
  Forall2 (λ f d, ∃ s1 s2, filter_delphes_to_numpy f max_events s1 = (Ok d, s2))
          input_files task_data →
  ∃ nts nbs,
    arrays_of "totalEvents" (surviving task_data) = (λ n, int_array [n]) <$> nts ∧
    arrays_of "skimEvents" (surviving task_data) = (λ n, int_array [n]) <$> nbs ∧
    length nts = length (surviving task_data) ∧
    length nbs = length (surviving task_data) ∧
    foldr Z.add 0 nbs = total_survivors input_files max_events ∧
    (∀ d, d ∈ surviving task_data → dom d = per_file_keys).
Proof.
  unfold total_survivors.
  induction 1 as [|f d fs ds (s1 & s2 & Hfd) _ IH].
  - exists [], []. repeat split; try done. by intros d ?%elem_of_nil.
  - destruct IH as (nts & nbs & Hnt & Hnb & Hlt & Hlb & Hsum & Hdom).
    destruct d as [d|].
    + apply filter_delphes_to_numpy_Some_inv in Hfd as (nt & Ht & Hb & Hd).
      exists (nt :: nts), (survivors f max_events :: nbs).
      change (surviving (Some d :: ds)) with (d :: surviving ds).
      rewrite (arrays_of_cons _ _ _ _ Ht), (arrays_of_cons _ _ _ _ Hb), Hnt, Hnb.
      simpl. rewrite Hlt, Hlb, Hsum.
      repeat split; try done.
      intros d' [->|Hd']%elem_of_cons; [done | by apply Hdom].
    + apply filter_delphes_to_numpy_None_inv in Hfd as [msg Hio].
      exists nts, nbs. change (surviving (None :: ds)) with (surviving ds).
      simpl. rewrite Hsum.
      repeat split; try done.
      unfold survivors. by rewrite Hio.
Qed.

Lemma foldl_promote_DInt (ds : list dtype) :
  Forall (λ d, d = DInt) ds → foldl promote DInt ds = DInt.
Proof. induction 1 as [|d ds -> _ IH]; [done | by simpl]. Qed.

Lemma concat_items_int_arrays (ns : list Z) :
  concat (items <$> ((λ n, int_array [n]) <$> ns)) = EInt <$> ns.
Proof.
  induction ns as [|n ns IH]; [done |].
  by rewrite !fmap_cons, concat_cons, IH.
Qed.

Lemma np_concatenate_Ok (arrays : list ndarray) :
  arrays ≠ [] →
  ∃ d, np_concatenate arrays
       = Ok (NDArray d (cast_elem d <$> concat (items <$> arrays))) ∧
       (Forall (λ a, dt a = DInt) arrays → d = DInt).
Proof.
  intros Hne. destruct arrays as [|a rest]; [done |].
  eexists. split; [reflexivity |].
  intros H. apply Forall_cons in H as [-> H].
  by apply foldl_promote_DInt, Forall_fmap.
Qed.

Lemma np_concatenate_int_arrays (ns : list Z) :
  ns ≠ [] → np_concatenate ((λ n, int_array [n]) <$> ns) = Ok (int_array ns).
Proof.
  intros Hne.
  destruct (np_concatenate_Ok ((λ n, int_array [n]) <$> ns)) as (d & -> & Hd).
  { by destruct ns. }
  rewrite Hd by (by apply Forall_fmap, Forall_true).
  rewrite concat_items_int_arrays. unfold int_array. do 2 f_equal.
  rewrite <- list_fmap_compose. by apply list_fmap_ext.
Qed.

Lemma np_sum_int_int_array (ns : list Z) : np_sum_int (int_array ns) = foldr Z.add 0 ns.
Proof.
  unfold np_sum_int, int_array. cbn [items]. rewrite <- list_fmap_compose.
  induction ns as [|n ns IH]; [done |].
  rewrite fmap_cons. cbn [foldr]. by rewrite IH.
Qed.

Lemma len_int_array (ns : list Z) : len (int_array ns) = Z.of_nat (length ns).
Proof. unfold len, int_array. simpl. by rewrite length_fmap. Qed.

Lemma process_files_parallel_Ok_inv (input_files : list string) (nw : Z)
    (max_events : option Z) (merged : table) (s s' : state) :
  process_files_parallel input_files nw max_events s = (Ok merged, s') →
  1 ≤ nw ∧
  ∃ task_data s1 s2,
    for_list_M (λ f, filter_delphes_to_numpy f max_events) input_files s1
    = (Ok task_data, s2) ∧
    merge_results task_data = Ok merged.
Proof.
  unfold process_files_parallel, logging_info.
  rewrite M_bind_log, M_bind_lift.
  destruct (decide (nw < 1)); [discriminate |].
  intros (task_data & s2 & Hl & H)%M_bind_Ok_inv.
  rewrite M_bind_log in H. unfold lift in H. injection H as H _.
  split; [lia | eauto].
Qed.

Lemma all_keys_uniform (dicts : list table) (K : gset string) :
  dicts ≠ [] → (∀ d, d ∈ dicts → dom d = K) → all_keys dicts = K.
Proof.
  intros Hne HK. apply set_eq. intros k. rewrite elem_of_all_keys. split.
  - intros (d & Hd & Hk). by rewrite <- (HK d Hd).
  - intros Hk. destruct dicts as [|d dicts]; [done |].
    exists d. split; [left |]. rewrite (HK d); [done | left].
Qed.

Lemma merged_bookkeeping (input_files : list string) (max_events : option Z)
    (task_data : list (option table)) (merged : table) :
  Forall2 (λ f d, ∃ s1 s2, filter_delphes_to_numpy f max_events s1 = (Ok d, s2))
          input_files task_data →
  merge_results task_data = Ok merged →
  let N := Z.of_nat (length (surviving task_data)) in
  (∀ a, merged !! "totalEvents" = Some a → len a = N) ∧
  (∀ b, merged !! "skimEvents" = Some b →
        len b = N ∧ np_sum_int b = total_survivors input_files max_events) ∧
  (0 < N → is_Some (merged !! "totalEvents") ∧ is_Some (merged !! "skimEvents")).
Proof.
  intros Hall Hmerge N.
  destruct (bookkeeping_arrays _ _ _ Hall)
    as (nts & nbs & Hnt & Hnb & Hlt & Hlb & Hsum & Hdom).
  destruct (decide (surviving task_data = [])) as [Hnil|Hne].
  - (* no file was read: the merged dataset has no key *)
    assert (merged = ∅) as ->.
    { unfold merge_results in Hmerge.
      rewrite filter_None_surviving, Hnil in Hmerge. simpl in Hmerge.
      unfold all_keys in Hmerge. simpl in Hmerge.
      rewrite elements_empty in Hmerge. by injection Hmerge. }
    subst N. rewrite Hnil. simpl.
    split; [|split].
    + intros a Ha. by rewrite lookup_empty in Ha.
    + intros b Hb. by rewrite lookup_empty in Hb.
    + lia.
  - assert (all_keys (surviving task_data) = per_file_keys) as Hkeys
      by (by apply all_keys_uniform).
    destruct (merge_uniform_tables task_data) as (m & Hm & _ & Hspec).
    { intros d Hd. by rewrite Hkeys, (Hdom d Hd). }
    assert (m = merged) as -> by congruence.
    assert (nts ≠ [] ∧ nbs ≠ []) as [Hnts Hnbs].
    { split; intros ->; destruct (surviving task_data); done. }
    destruct (Hspec "totalEvents") as (a & Ha & Hma).
    { rewrite Hkeys. unfold per_file_keys.
      rewrite !elem_of_union, !elem_of_singleton. prop_tauto. }
    destruct (Hspec "skimEvents") as (b & Hb & Hmb).
    { rewrite Hkeys. unfold per_file_keys.
      rewrite !elem_of_union, !elem_of_singleton. prop_tauto. }
    rewrite Hnt, np_concatenate_int_arrays in Ha by done.
    rewrite Hnb, np_concatenate_int_arrays in Hb by done.
    injection Ha as <-. injection Hb as <-.
    rewrite Hma, Hmb. subst N.
    split; [|split].
    + intros a [= <-]. rewrite len_int_array. lia.
    + intros b [= <-]. rewrite len_int_array, np_sum_int_int_array. split; [lia | done].
    + intros _. eauto.
Qed.

(** C10: the per-file result of a successfully processed file holds
    [totalEvents] and [skimEvents] as arrays of length 1, and [skimEvents] is
    the number of events of the file that pass the baseline selection. After a
    batch whose results were merged, with N the number of files that were
    processed successfully, the merged [totalEvents] and [skimEvents] have
    length N, and the entries of the merged [skimEvents] add up to the number
    of baseline-surviving events in the batch. *)
Theorem bookkeeping_columns (max_events : option Z) :
  (∀ root_file s d s',
     filter_delphes_to_numpy root_file max_events s = (Ok (Some d), s') →
     ∃ nt,
       d !! "totalEvents" = Some (int_array [nt]) ∧
       d !! "skimEvents" = Some (int_array [survivors root_file max_events]) ∧
       len (int_array [nt]) = 1 ∧
       len (int_array [survivors root_file max_events]) = 1) ∧
  (∀ input_files nw s merged s',
     process_files_parallel input_files nw max_events s = (Ok merged, s') →
     ∃ task_data s1 s2,
       for_list_M (λ f, filter_delphes_to_numpy f max_events) input_files s1
       = (Ok task_data, s2) ∧
       merge_results task_data = Ok merged ∧
       let N := Z.of_nat (length (surviving task_data)) in
       (∀ a, merged !! "totalEvents" = Some a → len a = N) ∧
       (∀ b, merged !! "skimEvents" = Some b →
             len b = N ∧ np_sum_int b = total_survivors input_files max_events) ∧
       (0 < N → is_Some (merged !! "totalEvents") ∧ is_Some (merged !! "skimEvents"))).
Proof.
  split.
  - intros root_file s d s' (nt & Ht & Hb & _)%filter_delphes_to_numpy_Some_inv.
    exists nt. done.
  - intros input_files nw s merged s' (_ & task_data & s1 & s2 & Hl & Hm)%process_files_parallel_Ok_inv.
    exists task_data, s1, s2. split; [done |]. split; [done |].
    apply merged_bookkeeping; [|done]. by eapply for_list_M_Ok_inv.
Qed.

(** ** main on a degenerate batch *)

Lemma for_list_M_all_unreadable (input_files : list string) (max_events : option Z)
    (s : state) :
  (∀ f, f ∈ input_files →
        ∃ msg, root2array f "Delphes" (branch_dict.*1) max_events = Raise (IOError msg)) →
  ∃ task_data s',
    for_list_M (λ f, filter_delphes_to_numpy f max_events) input_files s
    = (Ok task_data, s') ∧
    Forall (λ d, d = None) task_data.
Proof.
  revert s. induction input_files as [|f fs IH]; intros s Hall; simpl.
  - by exists [], s.
  - destruct (Hall f) as [msg Hio]; [left |].
    unfold mbind at 1, M_bind at 1.
    rewrite (filter_delphes_to_numpy_IOError _ _ _ _ Hio).
    destruct (IH (add_log s [LogRecord INFO "Now processing: %s" [ArgStr f];
                            LogRecord WARNING "WARNING: root2array gave an IOError: %s"
                              [ArgStr msg]]))
      as (ds & s' & Hds & Hnone).
    { intros f' Hf'. apply Hall. by right. }
    exists (None :: ds), s'. unfold mbind, M_bind. rewrite Hds.
    split; [done | by constructor].
Qed.

Lemma process_files_parallel_all_unreadable (input_files : list string) (nw : Z)
    (max_events : option Z) (s : state) :
  1 ≤ nw →
  (∀ f, f ∈ input_files →
        ∃ msg, root2array f "Delphes" (branch_dict.*1) max_events = Raise (IOError msg)) →
  ∃ s', process_files_parallel input_files nw max_events s = (Ok ∅, s').
Proof.
  intros Hnw Hall. unfold process_files_parallel, logging_info.
  rewrite M_bind_log, M_bind_lift, decide_False by lia.
  destruct (for_list_M_all_unreadable input_files max_events
              (add_log s [LogRecord INFO "Starting process pool of %d workers"
                            [ArgInt nw]]) Hall)
    as (ds & s' & Hds & Hnone).
  unfold mbind at 1, M_bind at 1. rewrite Hds, M_bind_log.
  unfold lift. rewrite (merge_results_Nones _ Hnone). eauto.
Qed.

(** When the merged dataset has a [skimEvents] column that adds up to zero,
    [main] logs that no event was selected and returns without writing. *)
Lemma main_no_survivors (args : arguments) (input_files : list string)
    (data : table) (a : ndarray) (s s1 : state) :
  read_input_lists (input_file_list args) [] = Ok input_files →
  process_files_parallel input_files (num_workers args) (max_events args)
    (add_log s [LogRecord INFO "Initializing" [];
                LogRecord INFO "Processing %i input files"
                  [ArgInt (Z.of_nat (length input_files))]])
  = (Ok data, s1) →
  data !! "skimEvents" = Some a → np_sum_int a = 0 →
  main args s
  = (Ok (), add_log s1 [LogRecord INFO "No events selected by filter. Exiting." []]) ∧
  written s1 = written s.
Proof.
  intros Hread Hpfp Ha Hsum. split.
  - unfold main, logging_info.
    rewrite M_bind_log, M_bind_lift, Hread, M_bind_log, add_log_add_log.
    unfold mbind at 1, M_bind at 1. simpl app. rewrite Hpfp.
    rewrite M_bind_lift. unfold getitem. rewrite Ha.
    by rewrite decide_True.
  - by apply preserves_process_files_parallel in Hpfp as [-> _].
Qed.

(** C9, at the input that breaks it: a batch in which the reader fails on
    every input file (or that lists no file at all). The merged dataset is
    the empty dict, [data['skimEvents']] raises a KeyError, and [main] ends
    with this exception instead of logging and returning; nothing is
    written. *)
Theorem main_all_files_unreadable (args : arguments) (input_files : list string)
    (s : state) :
  read_input_lists (input_file_list args) [] = Ok input_files →
  1 ≤ num_workers args →
  (∀ f, f ∈ input_files →
        ∃ msg, root2array f "Delphes" (branch_dict.*1) (max_events args)
               = Raise (IOError msg)) →
  (main args s).1 = Raise (KeyError "skimEvents") ∧
  written (main args s).2 = written s.
Proof.
  intros Hread Hnw Hall.
  destruct (process_files_parallel_all_unreadable input_files (num_workers args)
              (max_events args)
              (add_log s [LogRecord INFO "Initializing" [];
                          LogRecord INFO "Processing %i input files"
                            [ArgInt (Z.of_nat (length input_files))]]) Hnw Hall)
    as [s' Hpfp].
  assert (main args s = (Raise (KeyError "skimEvents"), s')) as ->.
  { unfold main, logging_info.
    rewrite M_bind_log, M_bind_lift, Hread, M_bind_log, add_log_add_log.
    unfold mbind at 1, M_bind at 1. simpl app. by rewrite Hpfp, M_bind_lift. }
  split; [done |].
  apply preserves_process_files_parallel in Hpfp as [Hw _]. simpl. by rewrite Hw.
Qed.

(** * Further properties of prepare_data.py *)

(** ** The merger: when it succeeds and what it returns *)

Lemma len_concat_items (arrays : list ndarray) :
  Z.of_nat (length (concat (items <$> arrays))) = foldr Z.add 0 (len <$> arrays).
Proof.
  induction arrays as [|a arrays IH]; [done |].
  rewrite !fmap_cons, concat_cons, length_app. cbn [foldr].
  rewrite <- IH. unfold len. lia.
Qed.

Lemma np_concatenate_Ok_inv (arrays : list ndarray) (c : ndarray) :
  np_concatenate arrays = Ok c →
  arrays ≠ [] ∧
  items c = cast_elem (dt c) <$> concat (items <$> arrays) ∧
  len c = foldr Z.add 0 (len <$> arrays).
Proof.
  destruct arrays as [|a rest]; [discriminate |].
  intros [= <-]. split; [done |]. split; [done |].
  exact (eq_trans (f_equal Z.of_nat (length_fmap _ _)) (len_concat_items (a :: rest))).
Qed.

Lemma merge_results_Ok_inv (dicts : list (option table)) (m : table) :
  merge_results dicts = Ok m →
  dom m = all_keys (filter_None dicts) ∧
  ∀ key, key ∈ all_keys (filter_None dicts) →
    (∀ d, d ∈ filter_None dicts → key ∈ dom d) ∧
    ∃ c, m !! key = Some c ∧
         np_concatenate (arrays_of key (filter_None dicts)) = Ok c.
Proof.
  unfold merge_results. set (T := filter_None dicts). intros Hm.
  pose proof (fill_Ok_lookup _ _ _ _ Hm) as Hlook.
  assert (∀ key, key ∈ all_keys T →
            (∀ d, d ∈ T → key ∈ dom d) ∧
            ∃ c, m !! key = Some c ∧ np_concatenate (arrays_of key T) = Ok c) as Hkeys.
  { intros key Hkey. destruct (Hlook key) as [Hin _].
    destruct Hin as (c & Hc & Hmc); [by apply elem_of_elements |].
    assert (∀ d, d ∈ T → key ∈ dom d) as Hall.
    { intros d Hd. destruct (decide (key ∈ dom d)) as [|Hn]; [done |].
      rewrite (merge_key_missing T d key Hd Hn) in Hc. discriminate. }
    split; [done |]. exists c. split; [done |].
    unfold merge_key in Hc. by rewrite (for_list_getitem _ _ Hall), !bind_Ok in Hc. }
  split; [|done].
  apply set_eq. intros key. rewrite elem_of_dom. split.
  - intros [c Hc]. destruct (decide (key ∈ all_keys T)) as [|Hn]; [done |].
    destruct (Hlook key) as [_ Hout].
    rewrite Hout, lookup_empty in Hc by (by rewrite elem_of_elements). discriminate.
  - intros Hkey. destruct (Hkeys key Hkey) as (_ & c & Hc & _). eauto.
Qed.

Lemma length_arrays_of (key : string) (dicts : list table) :
  (∀ d, d ∈ dicts → key ∈ dom d) →
  length (arrays_of key dicts) = length dicts.
Proof.
  intros H. pose proof (for_list_getitem dicts key H) as Hl.
  by apply for_list_length in Hl.
Qed.

(** X1: a successful merge neither loses nor invents rows. Under every key
    of the merged dataset every surviving per-file result contributes its
    array, the rows come in input order, and the row count is the sum of the
    per-file row counts. *)
Theorem merge_results_rows (dicts : list (option table)) (m : table)
    (key : string) (col : ndarray) :
  merge_results dicts = Ok m → m !! key = Some col →
  let arrays := arrays_of key (filter_None dicts) in
  length arrays = length (filter_None dicts) ∧
  items col = cast_elem (dt col) <$> concat (items <$> arrays) ∧
  len col = foldr Z.add 0 (len <$> arrays).
Proof.
  intros Hm Hcol arrays. apply merge_results_Ok_inv in Hm as [Hdom Hkeys].
  assert (key ∈ all_keys (filter_None dicts)) as Hkey
    by (rewrite <- Hdom; apply elem_of_dom; eauto).
  destruct (Hkeys key Hkey) as (Hall & c & Hc & Hcat).
  assert (c = col) as -> by congruence.
  apply np_concatenate_Ok_inv in Hcat as (_ & Hitems & Hlen).
  split; [by apply length_arrays_of | done].
Qed.

(** X2: the merge succeeds exactly when the results that survive the filter
    all carry the same key set. *)
Theorem merge_results_Ok_iff (dicts : list (option table)) :
  (∃ m, merge_results dicts = Ok m) ↔ uniform_keys (filter_None dicts).
Proof.
  split.
  - intros [m Hm]. apply merge_results_Ok_inv in Hm as [_ Hkeys].
    intros d Hd. apply set_eq. intros key. split.
    + intros Hk. apply elem_of_all_keys. eauto.
    + intros Hkey. destruct (Hkeys key Hkey) as [Hall _]. by apply Hall.
  - intros Huni. unfold merge_results. set (T := filter_None dicts) in *.
    apply fill_is_Ok. intros key Hkey%elem_of_elements.
    destruct (merge_key_Ok T key) as (c & Hc & _); [| |eauto].
    + intros HT. rewrite HT in Hkey. unfold all_keys in Hkey. simpl in Hkey.
      by apply elem_of_empty in Hkey.
    + intros d Hd. by rewrite (Huni d Hd).
Qed.

(** ** process_events: the region flags, the counters, the other columns *)

Lemma sr_quantities_flags (nb : Z) (pt eta m sum p4 p5 p : ndarray) :
  sr_quantities nb pt eta m = Ok (sum, p4, p5, p) →
  ∃ l4 l5, p4 = bool_array l4 ∧ p5 = bool_array l5 ∧
           length l4 = length l5 ∧ p = bool_array (zip_with orb l4 l5).
Proof.
  unfold sr_quantities. destruct (decide (0 < nb)) as [Hpos|Hzero].
  - intros (numFatJet & Hn & H)%bind_Ok_inv.
    apply bind_Ok_inv in H as (sums & Hs & H).
    apply bind_Ok_inv in H as (detas & Hd & H).
    apply bind_Ok_inv in H as (l4 & H4 & H).
    apply bind_Ok_inv in H as (l5 & H5 & H).
    apply bind_Ok_inv in H as (l & Hl & [= <- <- <- <-]).
    apply np_vectorize3_length in H4, H5.
    unfold np_logical_or in Hl.
    destruct (decide (length l4 = length l5)) as [Hlen|]; [|discriminate].
    injection Hl as <-. exists l4, l5. done.
  - intros [= <- <- <- <-]. by exists [], [].
Qed.

Lemma skim_events_flags (data : table) (s s' : state) (skimData : table) (nt nb : Z) :
  skim_events data s = (Ok (skimData, nt, nb), s') →
  ∃ l4 l5,
    skimData !! "passSR4J" = Some (bool_array l4) ∧
    skimData !! "passSR5J" = Some (bool_array l5) ∧
    length l4 = length l5 ∧
    skimData !! "passSR" = Some (bool_array (zip_with orb l4 l5)).
Proof.
  intros H. unfold skim_events in H.
  rewrite M_bind_lift in H.
  destruct (select_objects data) as [[[[pt eta] phi] m]|e] eqn:Hsel; [|discriminate].
  rewrite M_bind_lift in H.
  destruct (np_vectorize is_baseline_event pt) as [skimIdx|e] eqn:Hmask; [|discriminate].
  rewrite M_bind_lift in H.
  destruct (filter_events skimIdx [pt; eta; phi; m] ≫= unpack4)
    as [[[[pt' eta'] phi'] m']|e] eqn:Hfe; [|discriminate].
  unfold logging_info in H. rewrite M_bind_log, M_bind_lift in H.
  destruct (sr_quantities (np_sum_bool skimIdx) pt' eta' m')
    as [[[[sum p4] p5] p]|e] eqn:Hsr; [|discriminate].
  rewrite M_bind_lift in H. rewrite dom_skim_dict in H.
  match type of H with
  | match fill ?f ?ks ?acc with _ => _ end = _ =>
      destruct (fill f ks acc) as [sd|e] eqn:Hfill; [|discriminate]
  end.
  injection H as <- <- <- <-.
  apply sr_quantities_flags in Hsr as (l4 & l5 & -> & -> & Hlen & ->).
  pose proof (fill_Ok_lookup _ _ _ _ Hfill) as Hlook.
  assert (∀ k, k ∈ skim_keys → k ∉ elements (dom data ∖ skim_keys)) as Hskim
    by (by intros k Hk [_ Hn]%elem_of_elements%elem_of_difference).
  assert (∀ k, k ∈ skim_keys → sd !! k = _ !! k) as Hsd
    by (intros k Hk; apply (proj2 (Hlook k)), Hskim, Hk).
  exists l4, l5.
  rewrite 3!Hsd by (rewrite elem_of_skim_keys; prop_tauto).
  done.
Qed.

(** X3: the region-flag OR law. In every per-file table that
    [process_events] returns the three flag columns are boolean arrays of one
    length, and [passSR] is the element-wise OR of [passSR4J] and
    [passSR5J] (all three are empty when no event passes the baseline
    selection). *)
Theorem process_events_region_flags (data skim : table) (s s' : state) :
  process_events data s = (Ok skim, s') →
  ∃ l4 l5,
    skim !! "passSR4J" = Some (bool_array l4) ∧
    skim !! "passSR5J" = Some (bool_array l5) ∧
    length l4 = length l5 ∧
    skim !! "passSR" = Some (bool_array (zip_with orb l4 l5)).
Proof.
  intros (sd & nt & nb & Hsd & ->)%process_events_inv.
  apply skim_events_flags in Hsd as (l4 & l5 & H4 & H5 & Hlen & Hp).
  exists l4, l5. by rewrite !lookup_insert_ne by done.
Qed.

Lemma np_sum_bool_le_length (mask : list bool) :
  np_sum_bool mask ≤ Z.of_nat (length mask).
Proof. unfold np_sum_bool. pose proof (length_filter (λ b, b = true) mask). lia. Qed.

(** X4: the counters of a per-file table. [skimEvents] and [totalEvents]
    hold one integer each, and 0 <= skimEvents <= totalEvents. *)
Theorem process_events_counters (data skim : table) (s s' : state) :
  process_events data s = (Ok skim, s') →
  ∃ nt nb,
    skim !! "totalEvents" = Some (int_array [nt]) ∧
    skim !! "skimEvents" = Some (int_array [nb]) ∧
    0 ≤ nb ≤ nt.
Proof.
  intros (sd & nt & nb & Hsd & ->)%process_events_inv.
  apply skim_events_inv in Hsd as (mask & _ & -> & -> & _).
  eexists _, _. split; [by rewrite lookup_insert_ne, lookup_insert_eq |].
  split; [by rewrite lookup_insert_eq |].
  split; [apply np_sum_bool_nonneg | apply np_sum_bool_le_length].
Qed.

(** X5: the columns that [process_events] does not compute itself are all
    skimmed with the one baseline mask. Every input column whose name is not
    one of the eight computed ones and not one of the two counters comes out
    with its dtype and with the rows at the True positions of the mask, so
    row [i] of all these columns belongs to the same event. *)
Theorem process_events_other_columns (data skim : table) (s s' : state) :
  process_events data s = (Ok skim, s') →
  ∃ skimIdx,
    baseline_mask data = Ok skimIdx ∧
    ∀ k a, (k ∉ skim_keys) → k ≠ "totalEvents" → k ≠ "skimEvents" →
           data !! k = Some a →
           length (items a) = length skimIdx ∧
           skim !! k = Some (NDArray (dt a) (select_mask skimIdx (items a))).
Proof.
  intros (sd & nt & nb & Hsd & ->)%process_events_inv.
  apply skim_events_inv in Hsd as (mask & Hmask & _ & _ & _ & _ & _ & Hrest & _).
  exists mask. split; [done |]. intros k a Hk Ht Hb Ha.
  destruct (Hrest k a Hk Ha) as (c & [Hlen ->]%mask_index_Ok & Hc).
  split; [done |]. by rewrite !lookup_insert_ne by done.
Qed.

(** ** The bookkeeping of a file and of a batch *)

Lemma get_xsec_Ok_inv (filename : string) (x : Q) (s s' : state) :
  get_xsec filename s = (Ok x, s') →
  ∃ xs, xsec_table s = Ok xs ∧ xs !! sample_of filename = Some x.
Proof.
  unfold xsec_table, get_xsec, XsecMap_get_xsec.
  destruct (xsecMap s) as [m|].
  - destruct (m !! sample_of filename) as [y|] eqn:Hy; [|discriminate].
    intros [= <- <-]. eauto.
  - destruct load_xsec_map as [m|e]; [|discriminate].
    destruct (m !! sample_of filename) as [y|] eqn:Hy; [|discriminate].
    intros [= <- <-]. eauto.
Qed.

Lemma filter_delphes_to_numpy_bookkeeping (root_file : string)
    (max_events : option Z) (d : table) (s s' : state) :
  filter_delphes_to_numpy root_file max_events s = (Ok (Some d), s') →
  is_read root_file max_events = true ∧
  d !! "inputFile" = Some (object_array [EStr (basename root_file)]) ∧
  ∃ xs x, xsec_table s = Ok xs ∧ xs !! sample_of root_file = Some x ∧
          d !! "xsec" = Some (float_array [x]).
Proof.
  unfold is_read.
  destruct (root2array root_file "Delphes" (branch_dict.*1) max_events)
    as [tree|e] eqn:Hread.
  - rewrite (filter_delphes_to_numpy_tree _ _ _ _ Hread).
    destruct (process_events _ _) as [[skim|e] s1] eqn:Hpe; [|discriminate].
    destruct (get_xsec root_file s1) as [[x|e] s2] eqn:Hx; [|discriminate].
    intros [= <- <-]. split; [done |].
    split; [by rewrite lookup_insert_ne, lookup_insert_eq |].
    apply get_xsec_Ok_inv in Hx as (xs & Hxs & Hx).
    apply preserves_process_events in Hpe as [_ Ht].
    rewrite Ht in Hxs.
    exists xs, x. split; [exact Hxs |]. split; [done |].
    by rewrite lookup_insert_eq.
  - assert ((∃ msg, e = IOError msg) ∨ ∀ msg, e ≠ IOError msg) as [[msg ->]|Hno]
      by (destruct e; eauto).
    + by rewrite (filter_delphes_to_numpy_IOError _ _ _ _ Hread).
    + by rewrite (filter_delphes_to_numpy_Raise _ _ _ _ Hread).
Qed.

(** X6: the bookkeeping that the Per-File Processor attaches. A populated
    result stems from a file the reader could read; its [inputFile] column
    holds the base name of the path and its [xsec] column the entry of the
    reference table for the sample parsed from the path, one entry each. *)
Theorem filter_delphes_to_numpy_file_columns (root_file : string)
    (max_events : option Z) (d : table) (s s' : state) :
  filter_delphes_to_numpy root_file max_events s = (Ok (Some d), s') →
  is_read root_file max_events = true ∧
  d !! "inputFile" = Some (object_array [EStr (basename root_file)]) ∧
  ∃ xs x, xsec_table s = Ok xs ∧ xs !! sample_of root_file = Some x ∧
          d !! "xsec" = Some (float_array [x]).
Proof. apply filter_delphes_to_numpy_bookkeeping. Qed.

Lemma for_list_M_Raise_inv {A B} (P : A → M B) (l : list A) (e : exn) (s s' : state) :
  for_list_M P l s = (Raise e, s') →
  ∃ x s1, x ∈ l ∧ (P x s1).1 = Raise e.
Proof.
  revert s. induction l as [|x l IH]; intros s; simpl; [discriminate |].
  unfold mbind at 1, M_bind at 1.
  destruct (P x s) as [[b|e'] s1] eqn:Hx.
  - unfold mbind, M_bind.
    destruct (for_list_M P l s1) as [[bs|e'] s2] eqn:Hl; [discriminate |].
    intros [= -> <-]. destruct (IH _ Hl) as (y & s3 & Hy & Hr).
    exists y, s3. split; [by right | done].
  - intros [= -> <-]. exists x, s. split; [left | by rewrite Hx].
Qed.

Lemma for_list_M_Ok_inv_from {A B} (P : A → M B) (I : state → Prop)
    (l : list A) (bs : list B) (s s' : state) :
  (∀ y s r s', P y s = (r, s') → I s → I s') →
  I s → for_list_M P l s = (Ok bs, s') →
  Forall2 (λ x b, ∃ s1 s2, I s1 ∧ P x s1 = (Ok b, s2)) l bs.
Proof.
  intros HI. revert bs s. induction l as [|x l IH]; intros bs s Hs; simpl.
  - intros [= <- <-]. constructor.
  - intros (b & s1 & Hx & H)%M_bind_Ok_inv.
    apply M_bind_Ok_inv in H as (bs' & s2 & Hl & [= <- <-]).
    constructor; [eauto |]. eapply IH; [|done]. by eapply HI.
Qed.

Lemma tasks_merge (input_files : list string) (max_events : option Z)
    (task_data : list (option table)) :
  Forall2 (λ f d, ∃ s1 s2, filter_delphes_to_numpy f max_events s1 = (Ok d, s2))
          input_files task_data →
  ∃ m, merge_results task_data = Ok m.
Proof.
  intros Hall.
  destruct (bookkeeping_arrays _ _ _ Hall) as (_ & _ & _ & _ & _ & _ & _ & Hdom).
  destruct (merge_uniform_tables task_data) as (m & Hm & _); [|eauto].
  destruct (decide (surviving task_data = [])) as [Hnil|Hne].
  - rewrite Hnil. by intros d ?%elem_of_nil.
  - intros d Hd. rewrite (all_keys_uniform _ per_file_keys Hne Hdom). by apply Hdom.
Qed.

(** X7: the merge step never fails on the results of this program. Every
    populated per-file result has the same 21 keys, so when the dispatcher
    raises, either the pool could not be created (fewer than one worker) or
    the exception is the one that the Per-File Processor raised on one of
    the input files. *)
Theorem process_files_parallel_Raise_inv (input_files : list string) (nw : Z)
    (max_events : option Z) (e : exn) (s s' : state) :
  process_files_parallel input_files nw max_events s = (Raise e, s') →
  nw < 1 ∨
  ∃ root_file s1,
    root_file ∈ input_files ∧
    (filter_delphes_to_numpy root_file max_events s1).1 = Raise e.
Proof.
  unfold process_files_parallel, logging_info.
  rewrite M_bind_log, M_bind_lift.
  destruct (decide (nw < 1)) as [|Hnw]; [by left |]. intros H. right.
  unfold mbind at 1, M_bind at 1 in H.
  destruct (for_list_M _ input_files _) as [[task_data|e'] s2] eqn:Hl.
  - rewrite M_bind_log in H. unfold lift in H.
    destruct (tasks_merge input_files max_events task_data) as [m Hm];
      [by eapply for_list_M_Ok_inv |].
    rewrite Hm in H. discriminate.
  - injection H as -> _. by eapply for_list_M_Raise_inv.
Qed.

Lemma promote_idemp (d : dtype) : promote d d = d.
Proof. by destruct d. Qed.

Lemma foldl_promote_same (d : dtype) (ds : list dtype) :
  Forall (λ d', d' = d) ds → foldl promote d ds = d.
Proof.
  induction 1 as [|d' ds -> _ IH]; [done |]. simpl. by rewrite promote_idemp.
Qed.

Lemma concat_items_singletons (d : dtype) (es : list elem) :
  concat (items <$> ((λ e, NDArray d [e]) <$> es)) = es.
Proof.
  induction es as [|e es IH]; [done |].
  by rewrite !fmap_cons, concat_cons, IH.
Qed.

Lemma np_concatenate_cons (a : ndarray) (rest : list ndarray) :
  np_concatenate (a :: rest)
  = Ok (NDArray (foldl promote (dt a) (dt <$> rest))
          (cast_elem (foldl promote (dt a) (dt <$> rest))
             <$> concat (items <$> (a :: rest)))).
Proof. reflexivity. Qed.

Lemma np_concatenate_singletons (d : dtype) (es : list elem) :
  es ≠ [] → Forall (λ e, cast_elem d e = e) es →
  np_concatenate ((λ e, NDArray d [e]) <$> es) = Ok (NDArray d es).
Proof.
  intros Hne Hcast. destruct es as [|e es]; [done |].
  rewrite fmap_cons, np_concatenate_cons, fmap_cons, concat_cons,
    concat_items_singletons.
  rewrite foldl_promote_same by (by apply Forall_fmap, Forall_fmap, Forall_true).
  cbn [dt items app]. do 2 f_equal.
  clear Hne. induction Hcast as [|e' es' He _ IH]; [done |].
  by rewrite fmap_cons, He, IH.
Qed.

Lemma file_arrays (input_files : list string) (max_events : option Z)
    (xs : gmap string Q) (task_data : list (option table)) :
  Forall2 (λ f d, ∃ s1 s2, xsec_table s1 = Ok xs ∧
                           filter_delphes_to_numpy f max_events s1 = (Ok d, s2))
          input_files task_data →
  let read := filter (λ f, is_read f max_events = true) input_files in
  arrays_of "inputFile" (surviving task_data)
  = (λ e, NDArray DObject [e]) <$> ((λ f, EStr (basename f)) <$> read) ∧
  ∃ xsecs,
    arrays_of "xsec" (surviving task_data)
    = (λ e, NDArray DFloat [e]) <$> (EFloat <$> xsecs) ∧
    Forall2 (λ f x, xs !! sample_of f = Some x) read xsecs.
Proof.
  induction 1 as [|f d fs ds (s1 & s2 & Hxs & Hfd) _ IH]; simpl.
  - split; [done |]. by exists [].
  - destruct IH as (Hin & xsecs & Hx & Hall).
    destruct d as [d|].
    + apply filter_delphes_to_numpy_bookkeeping in Hfd
        as (Hread & Hfile & xs' & x & Hxs' & Hsample & Hxsec).
      assert (xs' = xs) as -> by congruence.
      rewrite filter_cons_True by done.
      change (surviving (Some d :: ds)) with (d :: surviving ds).
      rewrite (arrays_of_cons _ _ _ _ Hfile), (arrays_of_cons _ _ _ _ Hxsec), Hin, Hx.
      split; [done |]. exists (x :: xsecs). split; [done | by constructor].
    + apply filter_delphes_to_numpy_None_inv in Hfd as [msg Hio].
      rewrite filter_cons_False by (unfold is_read; by rewrite Hio).
      change (surviving (None :: ds)) with (surviving ds).
      split; [done |]. by exists xsecs.
Qed.

(** X8: the file columns of the merged dataset. After a batch that was
    merged, [inputFile] lists the base names of the files that the reader
    could read, in input order, and [xsec] lists, in the same order, the
    reference-table entries of their samples; both columns are present as
    soon as one file was read. *)
Theorem merged_file_columns (input_files : list string) (nw : Z)
    (max_events : option Z) (xs : gmap string Q) (merged : table) (s s' : state) :
  process_files_parallel input_files nw max_events s = (Ok merged, s') →
  xsec_table s = Ok xs →
  let read := filter (λ f, is_read f max_events = true) input_files in
  (∀ col, merged !! "inputFile" = Some col →
          col = object_array ((λ f, EStr (basename f)) <$> read)) ∧
  (∀ col, merged !! "xsec" = Some col →
          ∃ xsecs, col = float_array xsecs ∧
                   Forall2 (λ f x, xs !! sample_of f = Some x) read xsecs) ∧
  (read ≠ [] → is_Some (merged !! "inputFile") ∧ is_Some (merged !! "xsec")).
Proof.
  intros Hpfp Hxs read.
  unfold process_files_parallel, logging_info in Hpfp.
  rewrite M_bind_log, M_bind_lift in Hpfp.
  destruct (decide (nw < 1)); [discriminate |].
  apply M_bind_Ok_inv in Hpfp as (task_data & s2 & Hl & H).
  rewrite M_bind_log in H. unfold lift in H. injection H as Hmerge _.
  apply (for_list_M_Ok_inv_from _ (λ s1, xsec_table s1 = Ok xs)) in Hl; [| |done].
  2:{ intros f s0 r s0' Hf Hs0.
      apply preserves_filter_delphes_to_numpy in Hf as [_ ->]. done. }
  destruct (file_arrays _ _ _ _ Hl) as (Hfile & xsecs & Hxsec & Hall).
  fold read in Hfile, Hall.
  assert (Forall2 (λ f d, ∃ s1 s2, filter_delphes_to_numpy f max_events s1 = (Ok d, s2))
            input_files task_data) as Hl'.
  { eapply Forall2_impl; [exact Hl |]. intros f d (s1 & s3 & _ & Hfd). eauto. }
  destruct (bookkeeping_arrays _ _ _ Hl') as (_ & _ & _ & _ & _ & _ & _ & Hdom).
  destruct (decide (surviving task_data = [])) as [Hnil|Hne].
  - assert (merged = ∅) as ->.
    { unfold merge_results in Hmerge.
      rewrite filter_None_surviving, Hnil in Hmerge. simpl in Hmerge.
      unfold all_keys in Hmerge. simpl in Hmerge.
      rewrite elements_empty in Hmerge. by injection Hmerge. }
    assert (read = []) as Hread.
    { rewrite Hnil in Hfile. simpl in Hfile. symmetry in Hfile.
      apply fmap_nil_inv, fmap_nil_inv in Hfile. done. }
    split; [|split].
    + intros col Hc. by rewrite lookup_empty in Hc.
    + intros col Hc. by rewrite lookup_empty in Hc.
    + done.
  - assert (all_keys (surviving task_data) = per_file_keys) as Hkeys
      by (by apply all_keys_uniform).
    destruct (merge_uniform_tables task_data) as (m & Hm & _ & Hspec).
    { intros d Hd. by rewrite Hkeys, (Hdom d Hd). }
    assert (m = merged) as -> by congruence.
    assert (read ≠ [] ∧ xsecs ≠ []) as [Hr Hx].
    { split; intros Hnil.
      - rewrite Hnil in Hfile. destruct (surviving task_data) as [|d ds]; [done |].
        assert (length (arrays_of "inputFile" (d :: ds)) = length (d :: ds)) as Hlen.
        { apply length_arrays_of. intros d' Hd'. rewrite (Hdom d' Hd').
          unfold per_file_keys. rewrite !elem_of_union, !elem_of_singleton. prop_tauto. }
        by rewrite Hfile in Hlen.
      - rewrite Hnil in Hxsec. destruct (surviving task_data) as [|d ds]; [done |].
        assert (length (arrays_of "xsec" (d :: ds)) = length (d :: ds)) as Hlen.
        { apply length_arrays_of. intros d' Hd'. rewrite (Hdom d' Hd').
          unfold per_file_keys. rewrite !elem_of_union, !elem_of_singleton. prop_tauto. }
        by rewrite Hxsec in Hlen. }
    destruct (Hspec "inputFile") as (a & Ha & Hma).
    { rewrite Hkeys. unfold per_file_keys.
      rewrite !elem_of_union, !elem_of_singleton. prop_tauto. }
    destruct (Hspec "xsec") as (b & Hb & Hmb).
    { rewrite Hkeys. unfold per_file_keys.
      rewrite !elem_of_union, !elem_of_singleton. prop_tauto. }
    rewrite Hfile, np_concatenate_singletons in Ha.
    2:{ intros Hnil. apply fmap_nil_inv in Hnil. done. }
    2:{ apply Forall_fmap, Forall_true. done. }
    rewrite Hxsec, np_concatenate_singletons in Hb.
    2:{ intros Hnil. apply fmap_nil_inv in Hnil. done. }
    2:{ apply Forall_fmap, Forall_true. done. }
    injection Ha as <-. injection Hb as <-.
    rewrite Hma, Hmb. split; [|split].
    + by intros col [= <-].
    + intros col [= <-]. by exists xsecs.
    + eauto.
Qed.

(** ** main: what it writes *)

(** X9: what [main] does with the merged dataset. When the merged
    [skimEvents] adds up to zero, [main] logs that no event was selected and
    returns without writing. Otherwise it writes the merged dataset exactly
    once, to the given output path and with the requested compression, or
    not at all when no output path was given, and logs that it is done. *)
Theorem main_outcome (args : arguments) (input_files : list string)
    (data : table) (a : ndarray) (s s1 : state) :
  read_input_lists (input_file_list args) [] = Ok input_files →
  process_files_parallel input_files (num_workers args) (max_events args)
    (add_log s [LogRecord INFO "Initializing" [];
                LogRecord INFO "Processing %i input files"
                  [ArgInt (Z.of_nat (length input_files))]])
  = (Ok data, s1) →
  data !! "skimEvents" = Some a →
  main args s =
  (Ok (),
   if decide (np_sum_int a = 0) then
     add_log s1 [LogRecord INFO "No events selected by filter. Exiting." []]
   else
     match output_npz args with
     | Some path =>
         State (xsecMap s1)
               (log s1 ++ [LogRecord INFO "Writing to file %s" [ArgStr path];
                           LogRecord INFO "Output keys: %s"
                             [ArgKeys (elements (dom data))];
                           LogRecord INFO "Done!" []])
               (written s1 ++ [NpzWrite path (compress args) data])
     | None => add_log s1 [LogRecord INFO "Done!" []]
     end) ∧
  written s1 = written s.
Proof.
  intros Hread Hpfp Ha. split.
  - unfold main, logging_info.
    rewrite M_bind_log, M_bind_lift, Hread, M_bind_log, add_log_add_log.
    unfold mbind at 1, M_bind at 1. simpl app. rewrite Hpfp.
    rewrite M_bind_lift. unfold getitem. rewrite Ha.
    destruct (decide (np_sum_int a = 0)); [done |].
    destruct (output_npz args) as [path|]; [|done].
    unfold mbind, M_bind, logging_log, np_savez, add_log. simpl.
    by rewrite <- !app_assoc.
  - by apply preserves_process_files_parallel in Hpfp as [-> _].
Qed.

(** ** The reference table that cannot be loaded *)

(** X10: only the reader is guarded. When the file is read and has events
    but the cross-section table cannot be loaded (it was not cached and
    [load_xsec_map] raises, an IOError for a missing file for instance), the
    exception leaves the Per-File Processor and every batch that contains
    the file is aborted. *)
Theorem xsec_table_not_loaded (root_file : string) (max_events : option Z)
    (tree : list event) (e : exn) (s : state) :
  root2array root_file "Delphes" (branch_dict.*1) max_events = Ok tree →
  tree ≠ [] →
  xsec_table s = Raise e →
  (filter_delphes_to_numpy root_file max_events s).1 = Raise e ∧
  ∀ input_files nw, root_file ∈ input_files →
    raises (process_files_parallel input_files nw max_events s).1.
Proof.
  intros Hread Hne Ht.
  assert (∀ s0, xsec_table s0 = Raise e →
                (filter_delphes_to_numpy root_file max_events s0).1 = Raise e) as Hfd.
  { intros s0 Hs0. rewrite (filter_delphes_to_numpy_tree _ _ _ _ Hread).
    destruct (process_events_tree tree (add_log s0
                [LogRecord INFO "Now processing: %s" [ArgStr root_file];
                 LogRecord INFO "Applying event selection" []]) Hne)
      as (skim & s1 & Hpe).
    rewrite Hpe.
    assert (xsec_table s1 = Raise e) as Ht1.
    { apply preserves_process_events in Hpe as [_ ->]. done. }
    unfold xsec_table in Ht1. unfold get_xsec, XsecMap_get_xsec.
    destruct (xsecMap s1) as [m|]; [discriminate |]. by rewrite Ht1. }
  split; [by apply Hfd |].
  intros input_files nw Hin.
  apply (process_files_parallel_raises input_files nw max_events root_file
           (λ s0, xsec_table s0 = Raise e)); try done.
  - intros s0 s' [_ Hs'] Hs0. congruence.
  - intros s0 Hs0. eexists. by apply Hfd.
Qed.

(** ** File names and list files *)

Lemma split_nonempty (c : ascii) (s : string) : split c s ≠ [].
Proof.
  destruct s as [|x s]; simpl; [done |].
  destruct (Ascii.eqb x c); [done |]. by destruct (split c s).
Qed.

Lemma split_no_sep (c : ascii) (s : string) : occurs c s = false → split c s = [s].
Proof.
  induction s as [|x s IH]; simpl; [done |].
  intros [Hx Hs]%orb_false_elim. by rewrite Hx, (IH Hs).
Qed.

Lemma split_app_sep (c : ascii) (a b : string) :
  split c (a +:+ String c b) = (split c a ++ split c b)%list.
Proof.
  induction a as [|x a IH]; simpl.
  - by rewrite Ascii.eqb_refl.
  - destruct (Ascii.eqb x c); rewrite IH; [done |].
    pose proof (split_nonempty c a). by destruct (split c a).
Qed.

Lemma last_app_nonempty {A} (l1 l2 : list A) (d : A) :
  l2 ≠ [] → List.last (l1 ++ l2) d = List.last l2 d.
Proof.
  intros Hne. induction l1 as [|x l1 IH]; [done |].
  simpl. destruct (l1 ++ l2)%list eqn:Happ; [|done].
  by destruct l1, l2.
Qed.

Lemma basename_dir (dir base : string) :
  occurs "/" base = false → basename (dir +:+ String "/" base) = base.
Proof.
  intros Hb. unfold basename.
  by rewrite split_app_sep, (split_no_sep _ _ Hb), last_app_nonempty.
Qed.

Lemma basename_no_dir (base : string) : occurs "/" base = false → basename base = base.
Proof. intros Hb. unfold basename. by rewrite (split_no_sep _ _ Hb). Qed.

Lemma hd_split_app_sep (c : ascii) (a b : string) :
  occurs c a = false → List.hd EmptyString (split c (a +:+ String c b)) = a.
Proof. intros Ha. by rewrite split_app_sep, (split_no_sep _ _ Ha). Qed.

Lemma occurs_app (c : ascii) (a b : string) :
  occurs c (a +:+ b) = occurs c a || occurs c b.
Proof. induction a as [|x a IH]; simpl; [done |]. by rewrite IH, orb_assoc. Qed.

(** X11: how the sample identifier is parsed from a path. For a file named
    [sample-rest] in any directory, where [sample] holds neither a dash nor a
    slash and [rest] no slash, the base name is [sample-rest] and the sample
    identifier is [sample], with or without the directory; a base name
    without a dash is its own sample identifier. *)
Theorem sample_of_path (dir sample rest : string) :
  occurs "/" sample = false → occurs "-" sample = false → occurs "/" rest = false →
  basename (dir +:+ "/" +:+ sample +:+ "-" +:+ rest) = sample +:+ "-" +:+ rest ∧
  sample_of (dir +:+ "/" +:+ sample +:+ "-" +:+ rest) = sample ∧
  sample_of (sample +:+ "-" +:+ rest) = sample ∧
  sample_of (dir +:+ "/" +:+ sample) = sample.
Proof.
  intros Hs1 Hs2 Hr.
  assert (occurs "/" (sample +:+ "-" +:+ rest) = false) as Hbase.
  { rewrite occurs_app, Hs1. change ("-" +:+ rest) with (String "-" rest).
    cbn [occurs]. by rewrite Hr. }
  change ("/" +:+ ?x) with (String "/" x).
  change ("-" +:+ rest) with (String "-" rest) in *.
  split; [by apply basename_dir |]. split; [|split].
  - unfold sample_of. rewrite basename_dir by done. by apply hd_split_app_sep.
  - unfold sample_of. rewrite basename_no_dir by done. by apply hd_split_app_sep.
  - unfold sample_of. rewrite basename_dir by done. by rewrite split_no_sep.
Qed.

Lemma rstrip_all_space (ws : string) : all_space ws = true → rstrip ws = EmptyString.
Proof.
  induction ws as [|c ws IH]; simpl; [done |].
  intros [Hc Hws]%andb_prop. by rewrite (IH Hws), Hc.
Qed.

Lemma rstrip_app_space (p ws : string) :
  ends_in_space p = false → all_space ws = true → rstrip (p +:+ ws) = p.
Proof.
  intros Hp Hws. induction p as [|c p IH]; [by apply rstrip_all_space |].
  change (rstrip (String c p +:+ ws))
    with (match rstrip (p +:+ ws) with
          | EmptyString => if is_space c then EmptyString else String c EmptyString
          | r => String c r
          end).
  destruct p as [|c' p].
  - change (EmptyString +:+ ws) with ws.
    rewrite (rstrip_all_space _ Hws). simpl in Hp. by rewrite Hp.
  - by rewrite IH.
Qed.

Lemma read_input_lists_Ok (lists : list string) (liness : list (list string))
    (acc : list string) :
  Forall2 (λ l lines, readlines l = Ok lines) lists liness →
  read_input_lists lists acc = Ok (acc ++ (rstrip <$> concat liness))%list.
Proof.
  intros H. revert acc. induction H as [|l lines lists liness Hl _ IH]; intros acc.
  - simpl. by rewrite app_nil_r.
  - cbn [read_input_lists]. rewrite Hl, bind_Ok, IH.
    by rewrite concat_cons, fmap_app, app_assoc.
Qed.

(** X12: the input files are the lines of the list files. When every list
    file can be read and each of its lines is a path (that does not end in
    whitespace) followed by whitespace only (a newline, say), the input files
    are exactly these paths, list file after list file and line after line;
    no line is skipped, so a blank line gives an empty path. *)
Theorem read_input_lists_paths (lists : list string) (pathss : list (list string))
    (liness : list (list string)) :
  Forall2 (λ l lines, readlines l = Ok lines) lists liness →
  Forall2 (Forall2 (λ line p, ends_in_space p = false ∧
                              ∃ ws, all_space ws = true ∧ line = p +:+ ws))
          liness pathss →
  read_input_lists lists [] = Ok (concat pathss).
Proof.
  intros Hread Hlines. rewrite (read_input_lists_Ok _ _ _ Hread). simpl. f_equal.
  clear Hread. induction Hlines as [|lines paths liness pathss Hl _ IH]; [done |].
  rewrite !concat_cons, fmap_app, IH. f_equal.
  clear IH. induction Hl as [|line p lines paths (Hp & ws & Hws & ->) _ IH]; [done |].
  by rewrite fmap_cons, IH, rstrip_app_space.
Qed.

(** * Properties of run_classifiers.py *)

(** ** Clipping and padding *)

Lemma slice_to_nonneg {A} (k : Z) (l : list A) :
  0 ≤ k → slice_to k l = take (Z.to_nat k) l.
Proof. intros Hk. unfold slice_to. by rewrite decide_False by lia. Qed.

Lemma length_slice_to_le {A} (k : Z) (l : list A) : (length (slice_to k l) ≤ length l)%nat.
Proof. unfold slice_to. destruct (decide (k < 0)); rewrite length_take; lia. Qed.

Lemma clip_pad_row (a : list Q) (num_objects : Z) (default_val : Q) :
  0 ≤ num_objects →
  let k := Z.min num_objects (Z.of_nat (length a)) in
  assign_slice_to k (slice_to k a) (replicate (Z.to_nat num_objects) default_val)
  = Ok (take (Z.to_nat num_objects) a
        ++ replicate (Z.to_nat num_objects - length a) default_val)%list.
Proof.
  intros Hn k. assert (0 ≤ k) as Hk by lia.
  unfold assign_slice_to. rewrite !slice_to_nonneg by done.
  rewrite !length_take, length_replicate.
  rewrite decide_True by lia. f_equal.
  replace (Z.to_nat k `min` Z.to_nat num_objects)%nat with (Z.to_nat k) by lia.
  rewrite drop_replicate.
  destruct (decide (Z.to_nat num_objects ≤ length a)%nat) as [Hle|Hgt].
  - replace (Z.to_nat k) with (Z.to_nat num_objects) by lia. do 2 f_equal. lia.
  - replace (Z.to_nat k) with (length a) by lia.
    rewrite firstn_all, take_ge by lia. done.
Qed.

Lemma item_array_middle (array : ndarray) (pre rest : list (list Q)) (a : list Q) :
  items array = EArr <$> (pre ++ a :: rest)%list →
  item_array array (length pre) = Ok a.
Proof.
  intros Hitems. unfold item_array.
  by rewrite Hitems, list_lookup_fmap, (list_lookup_middle pre rest a).
Qed.

Lemma setitem_row_slice_to_middle (n : Z) (done rest : list (list Q)) (row : list Q)
    (i : nat) (k : Z) (values : list Q) :
  length done = i →
  setitem_row_slice_to (Array2 n (done ++ row :: rest)) i k values
  = row' ← assign_slice_to k values row; Ok (Array2 n (done ++ row' :: rest)).
Proof.
  intros Hi. unfold setitem_row_slice_to. cbn [rows ncols].
  rewrite list_lookup_middle by done.
  destruct (assign_slice_to k values row) as [row'|e]; [|done].
  rewrite !bind_Ok, insert_app_r_alt by lia.
  replace (i - length done)%nat with 0%nat by lia. done.
Qed.

Lemma for_each_cons {A S} (body : A → S → result S) (x : A) (l : list A) (acc : S) :
  for_each body (x :: l) acc = body x acc ≫= for_each body l.
Proof. reflexivity. Qed.

Lemma parse_object_features_loop (array : ndarray) (num_objects : Z) (default_val : Q)
    (rest pre done : list (list Q)) :
  0 ≤ num_objects →
  items array = EArr <$> (pre ++ rest)%list →
  length done = length pre →
  for_each (λ i output_array,
      a ← item_array array i;
      let k := Z.min num_objects (Z.of_nat (List.length a)) in
      setitem_row_slice_to output_array i k (slice_to k a))
    (seq (length pre) (length rest))
    (Array2 num_objects
       (done ++ replicate (length rest) (replicate (Z.to_nat num_objects) default_val)))
  = Ok (Array2 num_objects
          (done ++ ((λ a, take (Z.to_nat num_objects) a
                          ++ replicate (Z.to_nat num_objects - length a) default_val)
                    <$> rest))%list).
Proof.
  intros Hn. revert pre done. induction rest as [|a rest IH]; intros pre done Hitems Hlen.
  - done.
  - specialize (IH (pre ++ [a])%list
                   (done ++ [take (Z.to_nat num_objects) a
                             ++ replicate (Z.to_nat num_objects - length a) default_val])%list).
    rewrite <- !app_assoc, !length_app in IH. cbn [app length] in IH.
    rewrite !Nat.add_1_r in IH.
    specialize (IH Hitems ltac:(lia)).
    cbn [length seq replicate]. rewrite for_each_cons.
    rewrite (item_array_middle array pre rest a Hitems), bind_Ok.
    cbv zeta. rewrite setitem_row_slice_to_middle by done.
    rewrite (clip_pad_row a num_objects default_val Hn), bind_Ok, bind_Ok.
    rewrite fmap_cons. exact IH.
Qed.

Lemma parse_object_features_ragged (d : dtype) (l : list (list Q)) (num_objects : Z)
    (default_val : Q) :
  0 ≤ num_objects →
  parse_object_features (NDArray d (EArr <$> l)) num_objects default_val
  = Ok (Array2 num_objects
          ((λ a, take (Z.to_nat num_objects) a
                 ++ replicate (Z.to_nat num_objects - length a) default_val)%list <$> l)).
Proof.
  intros Hn. unfold parse_object_features, np_full. cbn [items].
  rewrite decide_False by lia. rewrite bind_Ok, length_fmap.
  exact (parse_object_features_loop (NDArray d (EArr <$> l)) num_objects default_val
           l [] [] Hn eq_refl eq_refl).
Qed.

Lemma length_clip_pad (a : list Q) (n : nat) (default_val : Q) :
  length (take n a ++ replicate (n - length a) default_val)%list = n.
Proof. rewrite length_app, length_take, length_replicate. lia. Qed.

(** X13: clipping and padding. On a column of per-event float arrays and a
    number of objects that is not negative, [parse_object_features] returns
    one row per event: the first [num_objects] values of the event, filled up
    with the default value to [num_objects] entries; the shape is (number of
    events, [num_objects]), also when there is no event. A negative number of
    objects is refused with a ValueError before any event is read. *)
Theorem parse_object_features_clip_pad (d : dtype) (l : list (list Q)) (num_objects : Z)
    (default_val : Q) :
  parse_object_features (NDArray d (EArr <$> l)) num_objects default_val
  = (if decide (num_objects < 0)
     then Raise (ValueError "negative dimensions are not allowed")
     else Ok (Array2 num_objects
                ((λ a, take (Z.to_nat num_objects) a
                       ++ replicate (Z.to_nat num_objects - length a) default_val)%list
                 <$> l))) ∧
  ∀ out, parse_object_features (NDArray d (EArr <$> l)) num_objects default_val = Ok out →
    shape out = (Z.of_nat (length l), num_objects) ∧
    Forall (λ row, Z.of_nat (length row) = num_objects) (rows out).
Proof.
  destruct (decide (num_objects < 0)) as [Hneg|Hn].
  - assert (parse_object_features (NDArray d (EArr <$> l)) num_objects default_val
            = Raise (ValueError "negative dimensions are not allowed")) as ->.
    { unfold parse_object_features, np_full. by rewrite decide_True. }
    split; [done | discriminate].
  - rewrite parse_object_features_ragged by lia. split; [done |].
    intros out [= <-]. unfold shape. cbn [rows ncols]. rewrite length_fmap.
    split; [done |]. apply Forall_fmap, Forall_forall. intros a _.
    unfold compose. rewrite length_clip_pad. lia.
Qed.

(** ** Reading arrays from an npz file *)

Lemma npz_getitem_Some (f : table) (k : string) (a : ndarray) :
  f !! k = Some a → npz_getitem f k = Ok a.
Proof. intros H. unfold npz_getitem. by rewrite H. Qed.

Lemma npz_getitem_None (f : table) (k : string) :
  f !! k = None → npz_getitem f k = Raise (KeyError (k +:+ " is not a file in the archive")).
Proof. intros H. unfold npz_getitem. by rewrite H. Qed.

Lemma for_list_npz_getitem_Ok (f : table) (keys : list string) :
  Forall (λ k, is_Some (f !! k)) keys →
  ∃ data, for_list (npz_getitem f) keys = Ok data ∧
    Forall2 (λ k a, f !! k = Some a) keys data.
Proof.
  induction 1 as [|k keys [a Ha] _ (data & Hdata & Hall)].
  - by exists [].
  - exists (a :: data). cbn [for_list].
    rewrite (npz_getitem_Some f k a Ha), Hdata. split; [done | by constructor].
Qed.

Lemma for_list_npz_getitem_missing (f : table) (pre post : list string) (k : string) :
  Forall (λ k, is_Some (f !! k)) pre → f !! k = None →
  for_list (npz_getitem f) (pre ++ k :: post)
  = Raise (KeyError (k +:+ " is not a file in the archive")).
Proof.
  intros Hpre Hk. induction Hpre as [|k' pre [a Ha] _ IH].
  - cbn [app for_list]. by rewrite (npz_getitem_None f k Hk).
  - cbn [app for_list]. by rewrite (npz_getitem_Some f k' a Ha), bind_Ok, IH.
Qed.

(** X14: what [retrieve_data] gives for a file that can be opened. When the
    file holds every requested key, the arrays come back in the order of the
    request and nothing is logged. Otherwise the first requested key that the
    file does not hold raises its KeyError, after one error record with the
    keys of the file has been logged; later keys are not looked at. *)
Theorem retrieve_data_outcomes (file_name : string) (f : table) (keys : list string) :
  np_load file_name = Ok f →
  (Forall (λ k, is_Some (f !! k)) keys →
   ∃ data, retrieve_data file_name keys = (Ok data, []) ∧
     Forall2 (λ k a, f !! k = Some a) keys data) ∧
  (∀ pre k post, keys = (pre ++ k :: post)%list →
     Forall (λ k, is_Some (f !! k)) pre → f !! k = None →
     retrieve_data file_name keys
     = (Raise (KeyError (k +:+ " is not a file in the archive")),
        [LogError "Requested key not found. Available keys: %s"
                  [ArgKeys (elements (dom f))]])).
Proof.
  intros Hload. unfold retrieve_data. rewrite Hload. split.
  - intros Hkeys. destruct (for_list_npz_getitem_Ok f keys Hkeys) as (data & -> & Hall).
    by exists data.
  - intros pre k post -> Hpre Hk.
    by rewrite (for_list_npz_getitem_missing f pre post k Hpre Hk).
Qed.

(** ** The feature matrix of a sample *)

Lemma kept_events_le (max_events : option Z) (num_events : nat) :
  (kept_events max_events num_events ≤ num_events)%nat.
Proof. unfold kept_events. destruct max_events as [n|]; [case_decide|]; lia. Qed.

Lemma data_kept (max_events : option Z) (num_events : nat) (cols : list (list (list Q))) :
  Forall (λ c, length c = num_events) cols →
  match max_events with
  | Some n =>
      if decide (n < Z.of_nat num_events)
      then ndarray_slice_to n <$> (ragged_array <$> cols)
      else ragged_array <$> cols
  | None => ragged_array <$> cols
  end
  = (λ c, ragged_array (take (kept_events max_events num_events) c)) <$> cols.
Proof.
  intros Hcols. unfold kept_events.
  destruct max_events as [n|]; [destruct (decide (n < Z.of_nat num_events)) as [Hlt|Hge] |].
  - rewrite <- list_fmap_compose. apply Forall_fmap_ext_1.
    eapply Forall_impl; [exact Hcols |]. intros c Hc. unfold compose.
    unfold ndarray_slice_to, ragged_array, slice_to. cbn [dt items].
    rewrite length_fmap, Hc. destruct (decide (n < 0)).
    + by rewrite fmap_take.
    + rewrite fmap_take. do 2 f_equal. lia.
  - apply Forall_fmap_ext_1. eapply Forall_impl; [exact Hcols |]. intros c Hc.
    cbv beta in Hc. rewrite decide_False by lia. rewrite take_ge by lia. done.
  - apply Forall_fmap_ext_1. eapply Forall_impl; [exact Hcols |]. intros c Hc.
    cbv beta in Hc. by rewrite take_ge by lia.
Qed.

(** X15: the layout of the feature matrix. For a sample file whose four
    fat-jet columns hold per-event float arrays for the same events, and a
    number of jets that is not negative, [prepare_sample_features] logs
    nothing and returns a matrix of shape (kept events, 4 * [num_jets]): the
    rows are the first events of the file, as many as the limit leaves, and a
    row holds the clipped and zero-padded transverse momenta, then the
    pseudorapidities, the azimuths and the masses of its event. *)
Theorem prepare_sample_features_layout (sample_file : string) (f : table)
    (pts etas phis ms : list (list Q)) (num_jets : Z) (max_events : option Z) :
  np_load sample_file = Ok f →
  f !! "fatJetPt" = Some (ragged_array pts) →
  f !! "fatJetEta" = Some (ragged_array etas) →
  f !! "fatJetPhi" = Some (ragged_array phis) →
  f !! "fatJetM" = Some (ragged_array ms) →
  length etas = length pts → length phis = length pts → length ms = length pts →
  0 ≤ num_jets →
  let kept := kept_events max_events (length pts) in
  let pad := λ a : list Q,
    (take (Z.to_nat num_jets) a ++ replicate (Z.to_nat num_jets - length a) 0%Q)%list in
  ∃ out,
    prepare_sample_features sample_file num_jets max_events = (Ok out, []) ∧
    shape out = (Z.of_nat kept, 4 * num_jets) ∧
    ∀ i pt eta phi m, (i < kept)%nat →
      pts !! i = Some pt → etas !! i = Some eta →
      phis !! i = Some phi → ms !! i = Some m →
      rows out !! i = Some (pad pt ++ pad eta ++ pad phi ++ pad m)%list.
Proof.
  intros Hload Hpt Heta Hphi Hm Hleta Hlphi Hlm Hn kept pad.
  pose proof (kept_events_le max_events (length pts)) as Hkept. fold kept in Hkept.
  unfold prepare_sample_features, retrieve_data. rewrite Hload.
  cbn [for_list].
  rewrite (npz_getitem_Some _ _ _ Hpt), (npz_getitem_Some _ _ _ Heta),
    (npz_getitem_Some _ _ _ Hphi), (npz_getitem_Some _ _ _ Hm).
  rewrite !bind_Ok.
  replace (len (ragged_array pts)) with (Z.of_nat (length pts))
    by (unfold len, ragged_array; cbn [items]; by rewrite length_fmap).
  change [ragged_array pts; ragged_array etas; ragged_array phis; ragged_array ms]
    with (ragged_array <$> [pts; etas; phis; ms]).
  rewrite (data_kept max_events (length pts) [pts; etas; phis; ms])
    by (repeat constructor; done).
  fold kept. cbn [fmap list_fmap for_list]. unfold ragged_array.
  rewrite !parse_object_features_ragged by done. rewrite !bind_Ok.
  fold pad. cbn [np_hstack for_each]. unfold hstack2. cbn [rows ncols].
  rewrite decide_True by (rewrite !length_fmap, !length_take; lia).
  rewrite bind_Ok. cbn [rows ncols].
  rewrite decide_True by (rewrite length_zip_with, !length_fmap, !length_take; lia).
  rewrite bind_Ok. cbn [rows ncols].
  rewrite decide_True by (rewrite !length_zip_with, !length_fmap, !length_take; lia).
  rewrite bind_Ok.
  eexists. split; [reflexivity |]. split.
  - unfold shape. cbn [rows ncols].
    rewrite !length_zip_with, !length_fmap, !length_take. f_equal; lia.
  - intros i pt eta phi m Hi Hipt Hieta Hiphi Him. cbn [rows].
    rewrite !lookup_zip_with, !list_lookup_fmap, !lookup_take_lt by done.
    rewrite Hipt, Hieta, Hiphi, Him. cbn. by rewrite <- !app_assoc.
Qed.

End Pipeline.

(** * The pipeline at work in the example world *)

Local Abbreviation ex_process_events :=
  (process_events Example.fatjet_cut Example.sum_fatjet_mass Example.fatjet_deta12
     Example.pass_sr4j Example.pass_sr5j).
Local Abbreviation ex_filter_delphes_to_numpy :=
  (filter_delphes_to_numpy Example.fatjet_cut Example.sum_fatjet_mass
     Example.fatjet_deta12 Example.pass_sr4j Example.pass_sr5j
     Example.root2array Example.load_xsec_map).
Local Abbreviation ex_process_files_parallel :=
  (process_files_parallel Example.fatjet_cut Example.sum_fatjet_mass
     Example.fatjet_deta12 Example.pass_sr4j Example.pass_sr5j
     Example.root2array Example.load_xsec_map).
Local Abbreviation ex_main :=
  (main Example.fatjet_cut Example.sum_fatjet_mass Example.fatjet_deta12
     Example.pass_sr4j Example.pass_sr5j Example.root2array Example.load_xsec_map
     Example.readlines).

(** C1 as it is written fails: the file is read, its sample is not in the
    reference table, and the Per-File Processor raises instead of returning a
    dictionary or [None]. *)
Lemma filter_delphes_to_numpy_may_raise :
  ¬ dict_or_None (ex_filter_delphes_to_numpy "data/unknown-0001.root" None initial_state).1.
Proof.
  assert ((ex_filter_delphes_to_numpy "data/unknown-0001.root" None initial_state).1
          = Raise (KeyError "unknown")) as -> by (vm_compute; reflexivity).
  intros [H|(d & H & _)]; discriminate.
Qed.

(** A file the reader cannot open: the error is logged and [None] comes back. *)
Lemma filter_delphes_to_numpy_outcomes_witness :
  Example.root2array "data/missing-0001.root" "Delphes" (branch_dict.*1) None
  = Raise (IOError "file not found") ∧
  ex_filter_delphes_to_numpy "data/missing-0001.root" None initial_state
  = (Ok None,
     add_log initial_state
       [LogRecord INFO "Now processing: %s" [ArgStr "data/missing-0001.root"];
        LogRecord WARNING "WARNING: root2array gave an IOError: %s"
          [ArgStr "file not found"]]).
Proof.
  split; [reflexivity |].
  apply (filter_delphes_to_numpy_outcomes Example.fatjet_cut Example.sum_fatjet_mass
           Example.fatjet_deta12 Example.pass_sr4j Example.pass_sr5j
           Example.root2array Example.load_xsec_map
           "data/missing-0001.root" None initial_state).
  reflexivity.
Defined.

(** C2 as it is written fails: with a key that one result has and the other
    lacks there is no merged table, the merge raises. *)
Lemma merge_results_other_keys :
  ¬ ∃ m, merge_results Example.other_keys = Ok m ∧
         merged_as_specified Example.other_keys m.
Proof.
  assert (∃ k, merge_results Example.other_keys = Raise (KeyError k)) as [k Hk]
    by (eexists; vm_compute; reflexivity).
  intros (m & Hm & _). congruence.
Qed.

(** Two results with the keys [a] and [b] around a failure sentinel. *)
Lemma merge_results_uniform_witness :
  uniform_keys (surviving Example.same_keys) ∧
  ∃ m, merge_results Example.same_keys = Ok m ∧
       merged_as_specified Example.same_keys m.
Proof.
  assert (uniform_keys (surviving Example.same_keys)) as H.
  { intros d Hd. unfold surviving, Example.same_keys in Hd. simpl in Hd.
    apply elem_of_cons in Hd as [->|Hd]; [by vm_compute |].
    apply elem_of_cons in Hd as [->|Hd]; [by vm_compute |].
    by apply elem_of_nil in Hd. }
  split; [exact H | exact (merge_results_uniform Example.same_keys H)].
Defined.

(** The three-event tree: two events pass and every column has two rows. *)
Lemma process_events_columns_aligned_witness :
  ∃ skim s',
    ex_process_events (tree_data Example.tree_three) initial_state = (Ok skim, s') ∧
    ∃ skimIdx skimData,
      baseline_mask Example.fatjet_cut (tree_data Example.tree_three) = Ok skimIdx ∧
      skim = <["skimEvents" := int_array [np_sum_bool skimIdx]]>
               (<["totalEvents" := int_array [Z.of_nat (length skimIdx)]]> skimData) ∧
      ∀ k col, skimData !! k = Some col → len col = np_sum_bool skimIdx.
Proof.
  destruct (ex_process_events (tree_data Example.tree_three) initial_state)
    as [[skim|e] s'] eqn:H; [|vm_compute in H; discriminate].
  exists skim, s'. split; [reflexivity |].
  exact (process_events_columns_aligned Example.fatjet_cut Example.sum_fatjet_mass
           Example.fatjet_deta12 Example.pass_sr4j Example.pass_sr5j
           (tree_data Example.tree_three) skim initial_state s' H).
Defined.

(** C4 as it is written fails: the sample of this file is not in the
    reference table, but the reader cannot read the file, so no lookup takes
    place; the processor returns [None] and a batch with the file is merged
    without an error. *)
Lemma unread_file_with_unknown_sample :
  (∃ xs, xsec_table Example.load_xsec_map initial_state = Ok xs ∧
         xs !! sample_of "data/missing-0001.root" = None) ∧
  (ex_process_files_parallel ["data/missing-0001.root"] 1 None initial_state).1 = Ok ∅ ∧
  ¬ unknown_sample_aborts Example.fatjet_cut Example.sum_fatjet_mass
      Example.fatjet_deta12 Example.pass_sr4j Example.pass_sr5j
      Example.root2array Example.load_xsec_map
      "data/missing-0001.root" None initial_state.
Proof.
  split; [eexists; split; [reflexivity | by vm_compute] |].
  split; [by vm_compute |].
  intros [H _]. vm_compute in H. discriminate.
Qed.

(** A file that is read and whose sample is not in the reference table. *)
Lemma unknown_sample_aborts_batch_witness :
  Example.root2array "data/unknown-0001.root" "Delphes" (branch_dict.*1) None
  = Ok Example.tree_three ∧
  Example.tree_three ≠ [] ∧
  xsec_table Example.load_xsec_map initial_state = Example.load_xsec_map ∧
  unknown_sample_aborts Example.fatjet_cut Example.sum_fatjet_mass
    Example.fatjet_deta12 Example.pass_sr4j Example.pass_sr5j
    Example.root2array Example.load_xsec_map
    "data/unknown-0001.root" None initial_state.
Proof.
  split; [reflexivity |]. split; [discriminate |]. split; [reflexivity |].
  apply (unknown_sample_aborts_batch Example.fatjet_cut Example.sum_fatjet_mass
           Example.fatjet_deta12 Example.pass_sr4j Example.pass_sr5j
           Example.root2array Example.load_xsec_map
           "data/unknown-0001.root" None Example.tree_three
           (<["qcd_JZ3" := 26454%Q]> ∅) initial_state).
  - reflexivity.
  - discriminate.
  - reflexivity.
  - vm_compute. reflexivity.
Defined.

(** Two failed files. *)
Lemma merge_results_all_None_witness :
  Forall (λ d : option table, d = None) [None; None] ∧
  ∃ m, merge_results [None; None] = Ok m ∧ m = ∅ ∧ size m = 0%nat ∧
       ∀ key col, m !! key = Some col → len col = 0%Z.
Proof.
  assert (Forall (λ d : option table, d = None) [None; None]) as H
    by (repeat constructor).
  split; [exact H | exact (merge_results_all_None [None; None] H)].
Defined.

(** The dict that [get_data] builds from a tree without events. *)
Lemma process_events_no_events_witness :
  rename_columns [] branch_dict ∅ = Ok (tree_data []) ∧
  (ex_process_events (tree_data []) initial_state).1
  = Raise (ValueError "cannot call `vectorize` on size 0 inputs unless `otypes` is set").
Proof.
  split; [reflexivity |].
  apply (process_events_no_events Example.fatjet_cut Example.sum_fatjet_mass
           Example.fatjet_deta12 Example.pass_sr4j Example.pass_sr5j
           (tree_data []) initial_state).
  reflexivity.
Defined.

(** The three-event tree: hard jets in the first and third event only. *)
Lemma three_events_scenario_witness :
  baseline_mask Example.fatjet_cut (tree_data Example.tree_three)
  = Ok [true; false; true] ∧
  ∃ skim s',
    ex_process_events (tree_data Example.tree_three) initial_state = (Ok skim, s') ∧
    skim !! "skimEvents" = Some (int_array [2%Z]) ∧
    skim !! "totalEvents" = Some (int_array [3%Z]) ∧
    skim !! "eventNumber" = Some (int_array [1%Z; 3%Z]) ∧
    ∀ k col, k ≠ "skimEvents" → k ≠ "totalEvents" → skim !! k = Some col →
             len col = 2%Z.
Proof.
  apply (three_events_scenario Example.fatjet_cut Example.sum_fatjet_mass
           Example.fatjet_deta12 Example.pass_sr4j Example.pass_sr5j
           Example.event1 Example.event2 Example.event3
           (tree_data Example.tree_three) initial_state).
  - reflexivity.
  - vm_compute. discriminate.
  - vm_compute. reflexivity.
  - vm_compute. discriminate.
Defined.

(** One result with the key [a] only, one with the key [b] only. *)
Lemma merge_results_divergent_keys_witness :
  ∃ k d, d ∈ filter_None Example.other_keys ∧ (k ∉ dom d) ∧
         merge_results Example.other_keys = Raise (KeyError k).
Proof.
  apply (merge_results_divergent_keys Example.other_keys
           (<["a" := int_array [1%Z]]> ∅) (<["b" := int_array [2%Z]]> ∅) "a").
  - vm_compute. left.
  - vm_compute. right. left.
  - apply elem_of_dom. eexists. vm_compute. reflexivity.
  - apply not_elem_of_dom. vm_compute. reflexivity.
Defined.

(** A list of two files that do not exist. *)
Lemma main_all_files_unreadable_witness :
  (ex_main (Args ["unreadable.txt"] (Some "out.npz") false None 1) initial_state).1
  = Raise (KeyError "skimEvents") ∧
  written (ex_main (Args ["unreadable.txt"] (Some "out.npz") false None 1)
             initial_state).2
  = written initial_state.
Proof.
  apply (main_all_files_unreadable Example.fatjet_cut Example.sum_fatjet_mass
           Example.fatjet_deta12 Example.pass_sr4j Example.pass_sr5j
           Example.root2array Example.load_xsec_map Example.readlines
           (Args ["unreadable.txt"] (Some "out.npz") false None 1)
           ["data/missing-0001.root"; "data/missing-0002.root"] initial_state).
  - vm_compute. reflexivity.
  - simpl. lia.
  - intros f Hf. exists "file not found".
    apply elem_of_cons in Hf as [->|Hf]; [reflexivity |].
    apply elem_of_cons in Hf as [->|Hf]; [reflexivity |].
    by apply elem_of_nil in Hf.
Defined.

(** Three files: three events of which two pass, a missing file, and two
    events of which none passes. *)
Lemma bookkeeping_columns_witness :
  ∃ merged s',
    ex_process_files_parallel
      ["data/qcd_JZ3-0001.root"; "data/missing-0001.root"; "data/qcd_JZ3-0002.root"]
      2 None initial_state
    = (Ok merged, s') ∧
    merged !! "totalEvents" = Some (int_array [3%Z; 2%Z]) ∧
    merged !! "skimEvents" = Some (int_array [2%Z; 0%Z]) ∧
    ∃ task_data s1 s2,
      for_list_M (λ f, ex_filter_delphes_to_numpy f None)
        ["data/qcd_JZ3-0001.root"; "data/missing-0001.root"; "data/qcd_JZ3-0002.root"]
        s1
      = (Ok task_data, s2) ∧
      merge_results task_data = Ok merged ∧
      let N := Z.of_nat (length (surviving task_data)) in
      (∀ a, merged !! "totalEvents" = Some a → len a = N) ∧
      (∀ b, merged !! "skimEvents" = Some b →
            len b = N ∧
            np_sum_int b
            = total_survivors Example.fatjet_cut Example.root2array
                ["data/qcd_JZ3-0001.root"; "data/missing-0001.root";
                 "data/qcd_JZ3-0002.root"] None) ∧
      (0 < N → is_Some (merged !! "totalEvents") ∧ is_Some (merged !! "skimEvents")).
Proof.
  destruct (ex_process_files_parallel
              ["data/qcd_JZ3-0001.root"; "data/missing-0001.root";
               "data/qcd_JZ3-0002.root"] 2 None initial_state)
    as [[merged|e] s'] eqn:H; [|vm_compute in H; discriminate].
  exists merged, s'. split; [reflexivity |].
  split; [vm_compute in H; injection H as <- _; vm_compute; reflexivity |].
  split; [vm_compute in H; injection H as <- _; vm_compute; reflexivity |].
  exact (proj2 (bookkeeping_columns Example.fatjet_cut Example.sum_fatjet_mass
                  Example.fatjet_deta12 Example.pass_sr4j Example.pass_sr5j
                  Example.root2array Example.load_xsec_map None)
               _ _ _ _ _ H).
Defined.
